(** * MPC.cpp: the cost/constraint evaluator [FG_eval] and [MPC::Solve]

    A shallow embedding of [src/MPC.cpp].  The file has two parts: the
    functor [FG_eval::operator()] that fills the vector [fg] (cost in
    [fg[0]], the constraints behind it) from the decision variables [vars],
    and [MPC::Solve], which sizes and bounds the problem, hands it to Ipopt
    and reads the actuators and the predicted path off the solution.

    - [size_t] is [Z] reduced modulo [2^64] after every operation.
    - [double] and [AD<double>] are one abstract numeric type [num] with the
      operations the source uses (class [Numeric]); the real numbers are an
      instance.  No property below depends on rounding.
    - A vector subscript outside the vector is undefined behaviour in C++;
      here it is the outcome [Fault], which names the vector and the index.
    - Ipopt is a parameter: any function from the assembled problem to a
      [solve_result]. *)

From Stdlib Require Import String.
From Stdlib Require Import ZArith List Lia QArith Reals Lra Bool.
Import ListNotations.
Local Open Scope Z_scope.

(** ** size_t arithmetic *)

Definition size_max : Z := 2 ^ 64.

Definition wrap (z : Z) : Z := z mod size_max.

Definition sz_add (a b : Z) : Z := wrap (a + b).
Definition sz_sub (a b : Z) : Z := wrap (a - b).
Definition sz_mul (a b : Z) : Z := wrap (a * b).

Declare Scope sz_scope.
Delimit Scope sz_scope with sz.
Notation "a +' b" := (sz_add a b) (at level 50, left associativity) : sz_scope.
Notation "a -' b" := (sz_sub a b) (at level 50, left associativity) : sz_scope.
Notation "a *' b" := (sz_mul a b) (at level 40, left associativity) : sz_scope.
Local Open Scope sz_scope.

(** ** Outcomes: a value, or a subscript outside a vector *)

Inductive vec_id : Type :=
| v_fg | v_vars | v_coeffs | v_state
| v_vars_lowerbound | v_vars_upperbound
| v_constraints_lowerbound | v_constraints_upperbound
| v_solution_x.

Inductive result (A : Type) : Type :=
| Ok (a : A)
| Fault (v : vec_id) (i : Z).

Arguments Ok {A} a.
Arguments Fault {A} v i.

Definition bind {A B : Type} (r : result A) (k : A -> result B) : result B :=
  match r with
  | Ok a => k a
  | Fault v i => Fault v i
  end.

Notation "x <- e ;; k" := (bind e (fun x => k))
  (at level 61, e at next level, right associativity).
Notation "' p <- e ;; k" := (bind e (fun p => k))
  (at level 61, p pattern, e at next level, right associativity).

(** ** Vectors with checked subscripts *)

Section Vectors.
Context {A : Type}.

Definition in_range (v : list A) (i : Z) : bool :=
  (0 <=? i) && (i <? Z.of_nat (length v)).

(** [v[i]] read *)
Definition vget (id : vec_id) (v : list A) (i : Z) : result A :=
  if 0 <=? i then
    match nth_error v (Z.to_nat i) with
    | Some a => Ok a
    | None => Fault id i
    end
  else Fault id i.

Fixpoint upd (v : list A) (n : nat) (a : A) : list A :=
  match v, n with
  | [], _ => []
  | _ :: v', O => a :: v'
  | b :: v', S n' => b :: upd v' n' a
  end.

(** [v[i] = a] *)
Definition vset (id : vec_id) (v : list A) (i : Z) (a : A) : result (list A) :=
  if in_range v i then Ok (upd v (Z.to_nat i) a) else Fault id i.

(** [Dvector v(n)]: [n] elements, none of them initialised; [junk] stands
    for whatever the fresh storage holds. *)
Definition alloc (junk : A) (n : Z) : list A := repeat junk (Z.to_nat n).
End Vectors.

(** ** [for (size_t t = lo; t < hi; ++t)] *)

Section Loops.
Context {S : Type}.

Fixpoint iterate (fuel : nat) (t : Z) (body : Z -> S -> result S) (s : S)
  : result S :=
  match fuel with
  | O => Ok s
  | Datatypes.S k => s' <- body t s ;; iterate k (t + 1) body s'
  end.

(** The counter runs from [lo] up to [hi - 1]; it never wraps because it
    stays below [hi]. *)
Definition for_loop (lo hi : Z) (body : Z -> S -> result S) (s : S)
  : result S :=
  iterate (Z.to_nat (hi - lo)) lo body s.
End Loops.

(** ** The numeric type *)

Class Numeric (num : Type) : Type := {
  lit : Q -> num;                 (* a numeric literal of the source *)
  nadd : num -> num -> num;
  nsub : num -> num -> num;
  nmul : num -> num -> num;
  ndiv : num -> num -> num;
  nneg : num -> num;              (* unary minus *)
  npow : num -> Z -> num;         (* CppAD::pow(x, n) *)
  ncos : num -> num;              (* CppAD::cos *)
  nsin : num -> num;              (* CppAD::sin *)
  natan : num -> num;             (* CppAD::atan *)
  M_PI : num;                     (* <cmath> *)
  float_max : num                 (* numeric_limits<float>::max() *)
}.

Arguments lit {num _} _%_Q.

Declare Scope num_scope.
Delimit Scope num_scope with num.
Notation "a + b" := (nadd a b) : num_scope.
Notation "a - b" := (nsub a b) : num_scope.
Notation "a * b" := (nmul a b) : num_scope.
Notation "a / b" := (ndiv a b) : num_scope.
Notation "- a" := (nneg a) : num_scope.

(** The real numbers as a numeric type: exact arithmetic. *)
#[export] Instance Numeric_R : Numeric R := {
  lit q := Q2R q;
  nadd := Rplus;
  nsub := Rminus;
  nmul := Rmult;
  ndiv := Rdiv;
  nneg := Ropp;
  npow := powerRZ;
  ncos := Rtrigo_def.cos;
  nsin := Rtrigo_def.sin;
  natan := Ratan.atan;
  M_PI := PI;
  float_max := IZR (2 ^ 128 - 2 ^ 104)
}.

(** ** Ipopt's interface (cppad/ipopt/solve_result.hpp) *)

Inductive status_type : Type :=
| not_defined | success | maxiter_exceeded | stop_at_tiny_step
| stop_at_acceptable_point | local_infeasibility | user_requested_stop
| feasible_point_found | diverging_iterates | restoration_failure
| error_in_step_computation | invalid_number_detected
| too_few_degrees_of_freedom | internal_error | unknown.

Definition status_eqb (a b : status_type) : bool :=
  match a, b with
  | not_defined, not_defined | success, success
  | maxiter_exceeded, maxiter_exceeded | stop_at_tiny_step, stop_at_tiny_step
  | stop_at_acceptable_point, stop_at_acceptable_point
  | local_infeasibility, local_infeasibility
  | user_requested_stop, user_requested_stop
  | feasible_point_found, feasible_point_found
  | diverging_iterates, diverging_iterates
  | restoration_failure, restoration_failure
  | error_in_step_computation, error_in_step_computation
  | invalid_number_detected, invalid_number_detected
  | too_few_degrees_of_freedom, too_few_degrees_of_freedom
  | internal_error, internal_error | unknown, unknown => true
  | _, _ => false
  end.

Record solve_result (num : Type) : Type := {
  status : status_type;
  x : list num;
  obj_value : num
}.

Arguments status {num} _.
Arguments x {num} _.
Arguments obj_value {num} _.

(** What [CppAD::ipopt::solve] is called with. *)
Record nlp (num : Type) : Type := {
  nlp_options : list string;
  nlp_xi : list num;
  nlp_xl : list num;
  nlp_xu : list num;
  nlp_gl : list num;
  nlp_gu : list num;
  nlp_fg_eval : list num -> list num -> result (list num)
}.

Arguments nlp_options {num} _.
Arguments nlp_xi {num} _.
Arguments nlp_xl {num} _.
Arguments nlp_xu {num} _.
Arguments nlp_gl {num} _.
Arguments nlp_gu {num} _.
Arguments nlp_fg_eval {num} _.

(** What [MPC::Solve] has in hand when it returns: the flag [ok], the cost
    it printed, and the vector it returns. *)
Record solve_frame (num : Type) : Type := {
  ok : bool;
  cost : num;
  returned : list num
}.

Arguments ok {num} _.
Arguments cost {num} _.
Arguments returned {num} _.

(** ** The program *)

Section MPC.
Context {num : Type} `{Numeric num}.
Local Open Scope num_scope.

(** [size_t N = 10;] in the source.  The horizon is kept as a parameter:
    every offset and every loop bound is computed from it. *)
Variable N : Z.

Definition dt : num := lit 0.1.
Definition Lf : num := lit 2.67.

Definition ref_cte : num := lit 0.
Definition ref_epsi : num := lit 0.
Definition ref_v : num := lit 130.

Definition x_start : Z := 0.
Definition y_start : Z := x_start +' N.
Definition psi_start : Z := y_start +' N.
Definition v_start : Z := psi_start +' N.
Definition cte_start : Z := v_start +' N.
Definition epsi_start : Z := cte_start +' N.
Definition delta_start : Z := epsi_start +' N.
Definition a_start : Z := delta_start +' N -' 1.

(** *** FG_eval *)

Definition cte_w : num := lit 1500.
Definition epsi_w : num := lit 2000.
Definition v_w : num := lit 1.
Definition actuator_w : num := lit 10.
Definition change_steer_w : num := lit 1000.
Definition change_accel_w : num := lit 10.

(** [fg[0] += e] *)
Definition cost_add (fg : list num) (e : num) : result (list num) :=
  c <- vget v_fg fg 0 ;;
  vset v_fg fg 0 (c + e).

(** Body of the first loop (lines 70-75). *)
Definition reference_cost (vars : list num) (t : Z) (fg : list num)
  : result (list num) :=
  cte <- vget v_vars vars (cte_start +' t) ;;
  fg <- cost_add fg (cte_w * npow (cte - ref_cte) 2) ;;
  epsi <- vget v_vars vars (epsi_start +' t) ;;
  fg <- cost_add fg (epsi_w * npow (epsi - ref_epsi) 2) ;;
  v <- vget v_vars vars (v_start +' t) ;;
  cost_add fg (v_w * npow (v - ref_v) 2).

(** Body of the second loop (lines 80-83). *)
Definition actuator_cost (vars : list num) (t : Z) (fg : list num)
  : result (list num) :=
  delta <- vget v_vars vars (delta_start +' t) ;;
  fg <- cost_add fg (actuator_w * npow delta 2) ;;
  a <- vget v_vars vars (a_start +' t) ;;
  cost_add fg (actuator_w * npow a 2).

(** Body of the third loop (lines 88-91).  C++ does not fix the order in
    which the two operands of a subtraction are read; the reads are written
    here left to right.  The order shows only in which subscript a fault
    names when both reads are out of range. *)
Definition change_cost (vars : list num) (t : Z) (fg : list num)
  : result (list num) :=
  delta1 <- vget v_vars vars (delta_start +' t +' 1) ;;
  delta0 <- vget v_vars vars (delta_start +' t) ;;
  fg <- cost_add fg (change_steer_w * npow (delta1 - delta0) 2) ;;
  a1 <- vget v_vars vars (a_start +' t +' 1) ;;
  a0 <- vget v_vars vars (a_start +' t) ;;
  cost_add fg (change_accel_w * npow (a1 - a0) 2).

(** [fg[1 + start] = vars[start]] (lines 100-105). *)
Definition initial_constraint (vars : list num) (start : Z) (fg : list num)
  : result (list num) :=
  v <- vget v_vars vars start ;;
  vset v_fg fg (1 +' start) v.

(** Body of the last loop (lines 108-152).  The four coefficients of line
    131 are operands of one expression, and C++ does not fix the order in
    which they are read; they are written here left to right.  The order
    shows only in which subscript a fault names when the vector has fewer
    than three entries. *)
Definition model_constraints (coeffs vars : list num) (t : Z) (fg : list num)
  : result (list num) :=
  x0 <- vget v_vars vars (x_start +' t -' 1) ;;
  y0 <- vget v_vars vars (y_start +' t -' 1) ;;
  psi0 <- vget v_vars vars (psi_start +' t -' 1) ;;
  v0 <- vget v_vars vars (v_start +' t -' 1) ;;
  cte0 <- vget v_vars vars (cte_start +' t -' 1) ;;
  epsi0 <- vget v_vars vars (epsi_start +' t -' 1) ;;
  x1 <- vget v_vars vars (x_start +' t) ;;
  y1 <- vget v_vars vars (y_start +' t) ;;
  psi1 <- vget v_vars vars (psi_start +' t) ;;
  v1 <- vget v_vars vars (v_start +' t) ;;
  cte1 <- vget v_vars vars (cte_start +' t) ;;
  epsi1 <- vget v_vars vars (epsi_start +' t) ;;
  delta0 <- vget v_vars vars (delta_start +' t -' 1) ;;
  a0 <- vget v_vars vars (a_start +' t -' 1) ;;
  c0 <- vget v_coeffs coeffs 0 ;;
  c1 <- vget v_coeffs coeffs 1 ;;
  c2 <- vget v_coeffs coeffs 2 ;;
  c3 <- vget v_coeffs coeffs 3 ;;
  let f0 := c0 + c1 * x0 + c2 * x0 * x0 + c3 * x0 * x0 * x0 in
  c1 <- vget v_coeffs coeffs 1 ;;
  c2 <- vget v_coeffs coeffs 2 ;;
  c3 <- vget v_coeffs coeffs 3 ;;
  let psides0 := natan (c1 + lit 2 * c2 * x0 + lit 3 * c3 * x0 * x0) in
  fg <- vset v_fg fg (1 +' x_start +' t) (x1 - (x0 + v0 * ncos psi0 * dt)) ;;
  fg <- vset v_fg fg (1 +' y_start +' t) (y1 - (y0 + v0 * nsin psi0 * dt)) ;;
  fg <- vset v_fg fg (1 +' psi_start +' t)
          (psi1 - (psi0 - v0 * delta0 / Lf * dt)) ;;
  fg <- vset v_fg fg (1 +' v_start +' t) (v1 - (v0 + a0 * dt)) ;;
  fg <- vset v_fg fg (1 +' cte_start +' t)
          (cte1 - ((f0 - y0) + (v0 * nsin epsi0 * dt))) ;;
  vset v_fg fg (1 +' epsi_start +' t)
    (epsi1 - ((psi0 - psides0) - v0 * delta0 / Lf * dt)).

(** [void operator()(ADvector& fg, const ADvector& vars)]: the vector [fg]
    is updated in place; here the updated vector is the value. *)
Definition FG_eval (coeffs : list num) (fg vars : list num)
  : result (list num) :=
  fg <- vset v_fg fg 0 (lit 0) ;;
  fg <- for_loop 0 N (reference_cost vars) fg ;;
  fg <- for_loop 0 (N -' 1) (actuator_cost vars) fg ;;
  fg <- for_loop 0 (N -' 2) (change_cost vars) fg ;;
  fg <- initial_constraint vars x_start fg ;;
  fg <- initial_constraint vars y_start fg ;;
  fg <- initial_constraint vars psi_start fg ;;
  fg <- initial_constraint vars v_start fg ;;
  fg <- initial_constraint vars cte_start fg ;;
  fg <- initial_constraint vars epsi_start fg ;;
  for_loop 1 N (model_constraints coeffs vars) fg.

(** *** MPC::Solve *)

Definition n_vars : Z := N *' 6 +' (N -' 1) *' 2.
Definition n_constraints : Z := N *' 6.

(** [for (i = lo; i < hi; ++i) { lower[i] = l; upper[i] = u; }] *)
Definition fill (idl idu : vec_id) (lo hi : Z) (l u : num)
    (b : list num * list num) : result (list num * list num) :=
  for_loop lo hi
    (fun i '(lower, upper) =>
       lower <- vset idl lower i l ;;
       upper <- vset idu upper i u ;;
       Ok (lower, upper))
    b.

Definition max_degrees : num := lit 25.
Definition max_radians : num := max_degrees * M_PI / lit 180.

Definition options : list string :=
  [ "Integer print_level  0";
    "Sparse  true        forward";
    "Sparse  true        reverse";
    "Numeric max_cpu_time          0.5" ]%string.

(** Lines 171-250: everything up to the call of the solver.  [junk] is the
    content of a vector that has been sized and not yet written. *)
Definition Solve_setup (junk : num) (state coeffs : list num)
  : result (nlp num) :=
  x <- vget v_state state 0 ;;
  y <- vget v_state state 1 ;;
  psi <- vget v_state state 2 ;;
  v <- vget v_state state 3 ;;
  cte <- vget v_state state 4 ;;
  epsi <- vget v_state state 5 ;;
  vars <- for_loop 0 n_vars (fun i vars => vset v_vars vars i (lit 0))
            (alloc junk n_vars) ;;
  ' (xl, xu) <- fill v_vars_lowerbound v_vars_upperbound 0 delta_start
                  (- float_max) float_max
                  (alloc junk n_vars, alloc junk n_vars) ;;
  ' (xl, xu) <- fill v_vars_lowerbound v_vars_upperbound delta_start a_start
                  (- max_radians) max_radians (xl, xu) ;;
  ' (xl, xu) <- fill v_vars_lowerbound v_vars_upperbound a_start n_vars
                  (- lit 1) (lit 1) (xl, xu) ;;
  ' (gl, gu) <- fill v_constraints_lowerbound v_constraints_upperbound
                  0 n_constraints (lit 0) (lit 0)
                  (alloc junk n_constraints, alloc junk n_constraints) ;;
  gl <- vset v_constraints_lowerbound gl x_start x ;;
  gl <- vset v_constraints_lowerbound gl y_start y ;;
  gl <- vset v_constraints_lowerbound gl psi_start psi ;;
  gl <- vset v_constraints_lowerbound gl v_start v ;;
  gl <- vset v_constraints_lowerbound gl cte_start cte ;;
  gl <- vset v_constraints_lowerbound gl epsi_start epsi ;;
  gu <- vset v_constraints_upperbound gu x_start x ;;
  gu <- vset v_constraints_upperbound gu y_start y ;;
  gu <- vset v_constraints_upperbound gu psi_start psi ;;
  gu <- vset v_constraints_upperbound gu v_start v ;;
  gu <- vset v_constraints_upperbound gu cte_start cte ;;
  gu <- vset v_constraints_upperbound gu epsi_start epsi ;;
  Ok {| nlp_options := options;
        nlp_xi := vars;
        nlp_xl := xl; nlp_xu := xu;
        nlp_gl := gl; nlp_gu := gu;
        nlp_fg_eval := FG_eval coeffs |}.

(** Lines 294-302: the vector that is returned. *)
Definition extract (solution_x : list num) : result (list num) :=
  delta <- vget v_solution_x solution_x delta_start ;;
  a <- vget v_solution_x solution_x a_start ;;
  for_loop 0 (N -' 1)
    (fun i result =>
       xi <- vget v_solution_x solution_x (x_start +' i +' 1) ;;
       yi <- vget v_solution_x solution_x (y_start +' i +' 1) ;;
       Ok (result ++ [xi] ++ [yi]))
    [delta; a].

(** The body of [MPC::Solve] with its locals kept. *)
Definition Solve_frame (ipopt_solve : nlp num -> solve_result num)
    (junk : num) (state coeffs : list num) : result (solve_frame num) :=
  problem <- Solve_setup junk state coeffs ;;
  let solution := ipopt_solve problem in
  let ok := true && status_eqb (status solution) success in
  let cost := obj_value solution in
  result <- extract (x solution) ;;
  Ok {| ok := ok; cost := cost; returned := result |}.

(** [vector<double> MPC::Solve(Eigen::VectorXd state, Eigen::VectorXd coeffs)] *)
Definition Solve (ipopt_solve : nlp num -> solve_result num)
    (junk : num) (state coeffs : list num) : result (list num) :=
  f <- Solve_frame ipopt_solve junk state coeffs ;;
  Ok (returned f).

End MPC.

(** ** Reading the vectors in statements *)

(** [elt v i] is [v[i]] for a subscript known to be inside [v]. *)
Definition elt {num : Type} `{Numeric num} (v : list num) (i : Z) : num :=
  nth (Z.to_nat i) v (lit 0).

(** The integers [lo], [lo + 1], ..., [hi - 1]. *)
Definition interval (lo hi : Z) : list Z :=
  map (fun k => lo + Z.of_nat k) (seq 0 (Z.to_nat (hi - lo))).

(** ** The spec's cost and model, written from its formulas

    These definitions follow the text of the specification, with integer
    subscripts that do not wrap; the theorems compare them with what
    [FG_eval] computes. *)

Section Spec.
Context {num : Type} `{Numeric num}.
Local Open Scope num_scope.
Variable N : Z.

(** The six state blocks of the layout. *)
Inductive component : Type := cx | cy | cpsi | cv | ccte | cepsi.

Definition start_of (c : component) : Z :=
  match c with
  | cx => x_start
  | cy => y_start N
  | cpsi => psi_start N
  | cv => v_start N
  | ccte => cte_start N
  | cepsi => epsi_start N
  end.

(** Tracking terms of step [t]: w_cte = 1500, w_epsi = 2000, w_v = 1. *)
Definition tracking_terms (vars : list num) (t : Z) : list num :=
  [ lit 1500 * npow (elt vars (cte_start N + t) - lit 0) 2;
    lit 2000 * npow (elt vars (epsi_start N + t) - lit 0) 2;
    lit 1 * npow (elt vars (v_start N + t) - ref_v) 2 ].

(** Actuation-magnitude terms of step [t]: w_act = 10. *)
Definition actuation_terms (vars : list num) (t : Z) : list num :=
  [ lit 10 * npow (elt vars (delta_start N + t)) 2;
    lit 10 * npow (elt vars (a_start N + t)) 2 ].

(** Smoothness terms of step [t]: w_dsteer = 1000, w_daccel = 10. *)
Definition smoothness_terms (vars : list num) (t : Z) : list num :=
  [ lit 1000 *
      npow (elt vars (delta_start N + t + 1) - elt vars (delta_start N + t)) 2;
    lit 10 *
      npow (elt vars (a_start N + t + 1) - elt vars (a_start N + t)) 2 ].

(** Start from [c] and add the terms one by one, in order. *)
Definition accumulate (c : num) (terms : list num) : num :=
  fold_left nadd terms c.

Definition spec_cost (vars : list num) : num :=
  accumulate (lit 0)
    (flat_map (tracking_terms vars) (interval 0 N)
     ++ flat_map (actuation_terms vars) (interval 0 (N - 1))
     ++ flat_map (smoothness_terms vars) (interval 0 (N - 2))).

(** The right-hand side of the model equation for component [c] at step
    [t], from the values at step [t - 1], with the operations grouped as
    the source groups them. *)
Definition model_rhs (coeffs vars : list num) (c : component) (t : Z) : num :=
  let x0 := elt vars (x_start + t - 1) in
  let y0 := elt vars (y_start N + t - 1) in
  let psi0 := elt vars (psi_start N + t - 1) in
  let v0 := elt vars (v_start N + t - 1) in
  let epsi0 := elt vars (epsi_start N + t - 1) in
  let delta0 := elt vars (delta_start N + t - 1) in
  let a0 := elt vars (a_start N + t - 1) in
  let c0 := elt coeffs 0 in
  let c1 := elt coeffs 1 in
  let c2 := elt coeffs 2 in
  let c3 := elt coeffs 3 in
  let f0 := c0 + c1 * x0 + c2 * x0 * x0 + c3 * x0 * x0 * x0 in
  let psides0 := natan (c1 + lit 2 * c2 * x0 + lit 3 * c3 * x0 * x0) in
  match c with
  | cx => x0 + v0 * ncos psi0 * dt
  | cy => y0 + v0 * nsin psi0 * dt
  | cpsi => psi0 - v0 * delta0 / Lf * dt
  | cv => v0 + a0 * dt
  | ccte => (f0 - y0) + (v0 * nsin epsi0 * dt)
  | cepsi => (psi0 - psides0) - v0 * delta0 / Lf * dt
  end.

(** What the evaluator leaves in [fg]: the cost, the six identities of
    step 0, and [next - rhs] for every later step. *)
Definition evaluated (coeffs vars fg' : list num) : Prop :=
  vget v_fg fg' 0 = Ok (spec_cost vars)
  /\ (forall c, vget v_fg fg' (1 + start_of c) = Ok (elt vars (start_of c)))
  /\ (forall c t, 1 <= t < N ->
        vget v_fg fg' (1 + start_of c + t)
        = Ok (elt vars (start_of c + t) - model_rhs coeffs vars c t)).
End Spec.

(** What the spec says [Solve] returns: the planned point of step [t], the
    planned path over steps [1 .. N - 1], and a list of pairs laid flat. *)
Section Returned.
Context {num : Type} `{Numeric num}.
Variable N : Z.

Definition predicted_point (sx : list num) (t : Z) : num * num :=
  (elt sx (x_start + t), elt sx (y_start N + t)).

Definition predicted_trajectory (sx : list num) : list (num * num) :=
  map (predicted_point sx) (interval 1 N).

Definition flatten (l : list (num * num)) : list num :=
  flat_map (fun p => [fst p; snd p]) l.
End Returned.

(** The spec's kinematic bicycle model over the real numbers: the state at
    the next step from the state and the actuators at this one, along the
    path [poly]. *)
Section BicycleModel.
Local Open Scope R_scope.

Definition poly (c : list R) (x : R) : R :=
  elt c 0 + elt c 1 * x + elt c 2 * x ^ 2 + elt c 3 * x ^ 3.

Definition poly' (c : list R) (x : R) : R :=
  elt c 1 + 2 * elt c 2 * x + 3 * elt c 3 * x ^ 2.

Definition bicycle_model (c : list R)
    (x0 y0 psi0 v0 cte0 epsi0 delta0 a0 : R) (k : component) : R :=
  let f0 := poly c x0 in
  let psides0 := atan (poly' c x0) in
  match k with
  | cx => x0 + v0 * cos psi0 * dt
  | cy => y0 + v0 * sin psi0 * dt
  | cpsi => psi0 - v0 / Lf * delta0 * dt
  | cv => v0 + a0 * dt
  | ccte => (f0 - y0) + v0 * sin epsi0 * dt
  | cepsi => (psi0 - psides0) - v0 * delta0 / Lf * dt
  end.
End BicycleModel.

(** A point is feasible for the solver when every constraint value
    [fg[1 + i]] lies between its bounds [gl[i]] and [gu[i]]; [le] is the
    order of the numeric type. *)
Definition feasible {num : Type} (le : num -> num -> Prop)
    (gl gu fg' : list num) : Prop :=
  forall i g l u,
    vget v_fg fg' (1 + i) = Ok g ->
    vget v_constraints_lowerbound gl i = Ok l ->
    vget v_constraints_upperbound gu i = Ok u ->
    le l g /\ le g u.

(** ** The phases of the program, named for the proofs *)

(** Where [MPC::Solve] reads each component of [state] (lines 171-176). *)
Definition state_index (k : component) : Z :=
  match k with
  | cx => 0 | cy => 1 | cpsi => 2 | cv => 3 | ccte => 4 | cepsi => 5
  end.

Section Phases.
Context {num : Type} `{Numeric num}.
Variable N : Z.
Variables coeffs vars : list num.

(** Lines 58-91 of [FG_eval]. *)
Definition cost_phase_run (fg : list num) : result (list num) :=
  fg0 <- vset v_fg fg 0 (lit 0) ;;
  fg1 <- for_loop 0 N (reference_cost N vars) fg0 ;;
  fg2 <- for_loop 0 (N -' 1) (actuator_cost N vars) fg1 ;;
  for_loop 0 (N -' 2) (change_cost N vars) fg2.

(** Lines 100-105 of [FG_eval]. *)
Definition initial_phase (fg : list num) : result (list num) :=
  fg <- initial_constraint vars x_start fg ;;
  fg <- initial_constraint vars (y_start N) fg ;;
  fg <- initial_constraint vars (psi_start N) fg ;;
  fg <- initial_constraint vars (v_start N) fg ;;
  fg <- initial_constraint vars (cte_start N) fg ;;
  initial_constraint vars (epsi_start N) fg.

(** One pass of the last loop writes six entries of [fg]. *)
Definition step_writes (t : Z) (fg : list num) : list num :=
  fold_left
    (fun fg k =>
       upd fg (Z.to_nat (1 + start_of N k + t))
         (elt vars (start_of N k + t) - model_rhs N coeffs vars k t)%num)
    [cx; cy; cpsi; cv; ccte; cepsi] fg.

End Phases.

Section Assembled.
Context {num : Type} `{Numeric num}.
Variable N : Z.

(** What [Solve] hands to the solver. *)
Definition assembled (state coeffs : list num) (p : nlp num) : Prop :=
  nlp_options p = options
  /\ nlp_fg_eval p = FG_eval N coeffs
  /\ (Z.of_nat (length (nlp_xi p)) = n_vars N
      /\ forall i, 0 <= i < n_vars N -> vget v_vars (nlp_xi p) i = Ok (lit 0))
  /\ (Z.of_nat (length (nlp_xl p)) = n_vars N
      /\ Z.of_nat (length (nlp_xu p)) = n_vars N
      /\ (forall i, 0 <= i < delta_start N ->
            vget v_vars_lowerbound (nlp_xl p) i = Ok (- float_max)%num
            /\ vget v_vars_upperbound (nlp_xu p) i = Ok float_max)
      /\ (forall i, delta_start N <= i < a_start N ->
            vget v_vars_lowerbound (nlp_xl p) i = Ok (- max_radians)%num
            /\ vget v_vars_upperbound (nlp_xu p) i = Ok max_radians)
      /\ (forall i, a_start N <= i < n_vars N ->
            vget v_vars_lowerbound (nlp_xl p) i = Ok (- lit 1)%num
            /\ vget v_vars_upperbound (nlp_xu p) i = Ok (lit 1)))
  /\ (Z.of_nat (length (nlp_gl p)) = n_constraints N
      /\ Z.of_nat (length (nlp_gu p)) = n_constraints N
      /\ (forall k,
            vget v_constraints_lowerbound (nlp_gl p) (start_of N k)
            = Ok (elt state (state_index k))
            /\ vget v_constraints_upperbound (nlp_gu p) (start_of N k)
               = Ok (elt state (state_index k)))
      /\ (forall i, 0 <= i < n_constraints N ->
            (forall k, i <> start_of N k) ->
            vget v_constraints_lowerbound (nlp_gl p) i = Ok (lit 0)
            /\ vget v_constraints_upperbound (nlp_gu p) i = Ok (lit 0))).
End Assembled.

(** * Proofs *)

(** ** size_t *)

Lemma size_max_val : size_max = 18446744073709551616.
Proof. reflexivity. Qed.

Ltac zlia := pose proof size_max_val; lia.

Lemma wrap_small z : 0 <= z < size_max -> wrap z = z.
Proof. intros Hz. unfold wrap. apply Z.mod_small. exact Hz. Qed.

Lemma sz_add_small a b : 0 <= a + b < size_max -> a +' b = a + b.
Proof. apply wrap_small. Qed.

Lemma sz_sub_small a b : 0 <= a - b < size_max -> a -' b = a - b.
Proof. apply wrap_small. Qed.

Lemma sz_mul_small a b : 0 <= a * b < size_max -> a *' b = a * b.
Proof. apply wrap_small. Qed.

Lemma sz_sub_wraps a b :
  0 <= a < b -> b <= size_max -> a -' b = size_max + a - b.
Proof.
  intros Hab Hb. unfold sz_sub, wrap.
  symmetry. apply (Z.mod_unique _ _ (-1)); zlia.
Qed.

(** Removes every [size_t] operation whose result provably did not wrap. *)
Ltac sz_norm :=
  repeat match goal with
    | |- context [sz_add ?a ?b] => rewrite (sz_add_small a b) by zlia
    | |- context [sz_sub ?a ?b] => rewrite (sz_sub_small a b) by zlia
    | |- context [sz_mul ?a ?b] => rewrite (sz_mul_small a b) by zlia
    end.

(** ** Vectors *)

Section VectorFacts.
Context {A : Type}.
Implicit Types (v : list A) (i j : Z) (a d : A).

Lemma length_upd v n a : length (upd v n a) = length v.
Proof.
  revert n. induction v as [| b v IH]; intros [| n]; simpl; auto.
Qed.

Lemma nth_error_upd_same v n a :
  (n < length v)%nat -> nth_error (upd v n a) n = Some a.
Proof.
  revert n. induction v as [| b v IH]; intros [| n]; simpl; intros Hn;
    try lia; auto.
  apply IH. lia.
Qed.

Lemma nth_error_upd_other v n m a :
  n <> m -> nth_error (upd v m a) n = nth_error v n.
Proof.
  revert n m. induction v as [| b v IH]; intros [| n] [| m]; simpl;
    intros Hnm; auto; try congruence.
Qed.

Lemma vget_ok id v i d :
  0 <= i < Z.of_nat (length v) ->
  vget id v i = Ok (nth (Z.to_nat i) v d).
Proof.
  intros [H0 H1]. unfold vget.
  destruct (Z.leb_spec 0 i) as [_ | Hneg]; [| lia].
  destruct (nth_error v (Z.to_nat i)) as [a |] eqn:E.
  - f_equal. symmetry. apply nth_error_nth. exact E.
  - apply nth_error_None in E. lia.
Qed.

Lemma vget_fault id v i :
  Z.of_nat (length v) <= i -> vget id v i = Fault id i.
Proof.
  intros Hi. unfold vget.
  destruct (0 <=? i); [| reflexivity].
  destruct (nth_error v (Z.to_nat i)) as [a |] eqn:E; [| reflexivity].
  assert (Hlt : (Z.to_nat i < length v)%nat)
    by (apply nth_error_Some; congruence).
  lia.
Qed.

Lemma vget_Ok_range id v i a :
  vget id v i = Ok a -> 0 <= i < Z.of_nat (length v).
Proof.
  unfold vget. destruct (Z.leb_spec 0 i) as [H0 | Hneg]; [| discriminate].
  destruct (nth_error v (Z.to_nat i)) as [b |] eqn:E; [| discriminate].
  intros _. assert (Hlt : (Z.to_nat i < length v)%nat)
    by (apply nth_error_Some; congruence).
  lia.
Qed.

Lemma vset_ok id v i a :
  0 <= i < Z.of_nat (length v) ->
  vset id v i a = Ok (upd v (Z.to_nat i) a).
Proof.
  intros [H0 H1]. unfold vset, in_range.
  destruct (Z.leb_spec 0 i); [| lia].
  destruct (Z.ltb_spec i (Z.of_nat (length v))); [reflexivity | lia].
Qed.

Lemma vget_upd_same id v i a :
  0 <= i < Z.of_nat (length v) ->
  vget id (upd v (Z.to_nat i) a) i = Ok a.
Proof.
  intros [H0 H1]. unfold vget.
  destruct (Z.leb_spec 0 i); [| lia].
  rewrite nth_error_upd_same by lia. reflexivity.
Qed.

Lemma vget_upd_other id v i j a :
  0 <= i -> 0 <= j -> i <> j ->
  vget id (upd v (Z.to_nat j) a) i = vget id v i.
Proof.
  intros Hi Hj Hij. unfold vget.
  rewrite nth_error_upd_other by lia. reflexivity.
Qed.

Lemma length_alloc a n : 0 <= n -> Z.of_nat (length (alloc a n)) = n.
Proof. intros Hn. unfold alloc. rewrite repeat_length. lia. Qed.
End VectorFacts.

(** Reads a vector through the writes made to it: the write at the subscript
    read gives the value, every other write is skipped. *)
Ltac through_writes :=
  repeat first
    [ rewrite vget_upd_same by (rewrite ?length_upd; lia)
    | rewrite vget_upd_other by lia ].

(** ** Loops *)

Section LoopFacts.
Context {S : Type}.
Implicit Types (body : Z -> S -> result S) (s : S).

(** The invariant rule: an invariant that every iteration re-establishes
    holds when the loop is left, and the loop is left normally. *)
Lemma iterate_inv (I : Z -> S -> Prop) body fuel :
  forall t s,
    I t s ->
    (forall k s0, t <= k < t + Z.of_nat fuel -> I k s0 ->
                  exists s1, body k s0 = Ok s1 /\ I (k + 1) s1) ->
    exists s', iterate fuel t body s = Ok s' /\ I (t + Z.of_nat fuel) s'.
Proof.
  induction fuel as [| n IH]; intros t s Hs Hstep.
  - exists s. split; [reflexivity |].
    replace (t + Z.of_nat 0) with t by lia. exact Hs.
  - destruct (Hstep t s) as (s1 & E1 & H1); [lia | exact Hs |].
    destruct (IH (t + 1) s1 H1) as (s' & E' & H').
    + intros k s0 Hk. apply Hstep. lia.
    + exists s'. split.
      * simpl. rewrite E1. simpl. exact E'.
      * replace (t + Z.of_nat (Datatypes.S n)) with (t + 1 + Z.of_nat n)
          by lia.
        exact H'.
Qed.

Lemma for_loop_inv (I : Z -> S -> Prop) lo hi body s :
  lo <= hi ->
  I lo s ->
  (forall k s0, lo <= k < hi -> I k s0 ->
                exists s1, body k s0 = Ok s1 /\ I (k + 1) s1) ->
  exists s', for_loop lo hi body s = Ok s' /\ I hi s'.
Proof.
  intros Hle Hs Hstep. unfold for_loop.
  destruct (iterate_inv I body (Z.to_nat (hi - lo)) lo s Hs)
    as (s' & E & H').
  - intros k s0 Hk. apply Hstep. lia.
  - exists s'. split; [exact E |].
    replace (lo + Z.of_nat (Z.to_nat (hi - lo))) with hi in H' by lia.
    exact H'.
Qed.

(** A loop whose bound is not above its start does nothing. *)
Lemma for_loop_empty lo hi body s : hi <= lo -> for_loop lo hi body s = Ok s.
Proof.
  intros Hle. unfold for_loop.
  replace (Z.to_nat (hi - lo)) with O by lia. reflexivity.
Qed.

(** A loop that is entered and whose first iteration faults, faults. *)
Lemma for_loop_first_fault lo hi body s v i :
  lo < hi -> body lo s = Fault v i -> for_loop lo hi body s = Fault v i.
Proof.
  intros Hlt E. unfold for_loop.
  destruct (Z.to_nat (hi - lo)) as [| n] eqn:En; [lia |].
  simpl. rewrite E. reflexivity.
Qed.

Lemma iterate_ext body1 body2 fuel :
  (forall t s, body1 t s = body2 t s) ->
  forall t s, iterate fuel t body1 s = iterate fuel t body2 s.
Proof.
  intros Hext. induction fuel as [| n IH]; intros t s; simpl.
  - reflexivity.
  - rewrite Hext. destruct (body2 t s) as [s1 | v i]; simpl; auto.
Qed.

Lemma for_loop_ext body1 body2 lo hi s :
  (forall t s0, body1 t s0 = body2 t s0) ->
  for_loop lo hi body1 s = for_loop lo hi body2 s.
Proof. intros Hext. apply iterate_ext. exact Hext. Qed.
End LoopFacts.

Lemma interval_empty lo hi : hi <= lo -> interval lo hi = [].
Proof.
  intros Hle. unfold interval.
  replace (Z.to_nat (hi - lo)) with O by lia. reflexivity.
Qed.

Lemma interval_snoc lo k : lo <= k -> interval lo (k + 1) = interval lo k ++ [k].
Proof.
  intros Hle. unfold interval.
  replace (Z.to_nat (k + 1 - lo)) with (Datatypes.S (Z.to_nat (k - lo))) by lia.
  rewrite seq_S, map_app. simpl.
  do 2 f_equal. lia.
Qed.

Lemma length_interval lo hi : lo <= hi -> Z.of_nat (length (interval lo hi)) = hi - lo.
Proof.
  intros Hle. unfold interval. rewrite length_map, length_seq. lia.
Qed.

(** ** The layout *)

Lemma layout_values N :
  1 <= N -> 8 * N < size_max ->
  x_start = 0 /\ y_start N = N /\ psi_start N = 2 * N /\ v_start N = 3 * N
  /\ cte_start N = 4 * N /\ epsi_start N = 5 * N /\ delta_start N = 6 * N
  /\ a_start N = 7 * N - 1
  /\ n_vars N = 8 * N - 2 /\ n_constraints N = 6 * N.
Proof.
  intros H1 H8.
  unfold n_vars, n_constraints, a_start, delta_start, epsi_start, cte_start,
    v_start, psi_start, y_start, x_start.
  sz_norm. repeat split; lia.
Qed.

(** Brings the closed forms of the offsets into the context, for [lia]. *)
Ltac layout N :=
  let L := fresh "L" in
  pose proof (layout_values N) as L;
  destruct L as (Lx & Ly & Lpsi & Lv & Lcte & Lepsi & Ldelta & La & Lnv & Lnc);
  [ zlia | zlia | ].

(** ** The cost *)

Section CostFacts.
Context {num : Type} `{Numeric num}.
Variable N : Z.

Lemma cost_add_spec (fg : list num) (c e : num) :
  vget v_fg fg 0 = Ok c ->
  exists fg',
    cost_add fg e = Ok fg'
    /\ length fg' = length fg
    /\ vget v_fg fg' 0 = Ok (c + e)%num.
Proof.
  intros E. pose proof (vget_Ok_range _ _ _ _ E) as Hr.
  exists (upd fg (Z.to_nat 0) (c + e)%num). unfold cost_add.
  rewrite E. cbn [bind]. rewrite vset_ok by exact Hr.
  split; [reflexivity |]. split; [apply length_upd |].
  apply vget_upd_same. exact Hr.
Qed.

(** A loop whose every iteration adds the terms [terms t] to [fg[0]] adds
    the terms of all its iterations, in order. *)
Lemma accumulate_loop (terms : Z -> list num) body lo hi fg c :
  lo <= hi ->
  vget v_fg fg 0 = Ok c ->
  (forall t fg0 c0,
      lo <= t < hi -> length fg0 = length fg -> vget v_fg fg0 0 = Ok c0 ->
      exists fg1, body t fg0 = Ok fg1
                  /\ length fg1 = length fg0
                  /\ vget v_fg fg1 0 = Ok (accumulate c0 (terms t))) ->
  exists fg',
    for_loop lo hi body fg = Ok fg'
    /\ length fg' = length fg
    /\ vget v_fg fg' 0 = Ok (accumulate c (flat_map terms (interval lo hi))).
Proof.
  intros Hle E Hbody.
  destruct (for_loop_inv
              (fun k fg0 =>
                 length fg0 = length fg
                 /\ vget v_fg fg0 0
                    = Ok (accumulate c (flat_map terms (interval lo k))))
              lo hi body fg Hle) as (fg' & E' & Hlen & Hc).
  - split; [reflexivity |].
    rewrite interval_empty by lia. exact E.
  - intros k fg0 Hk [Hlen Hc].
    destruct (Hbody k fg0 _ Hk Hlen Hc) as (fg1 & E1 & Hlen1 & Hc1).
    exists fg1. split; [exact E1 |]. split; [congruence |].
    rewrite interval_snoc by lia.
    rewrite flat_map_app. unfold accumulate in *.
    rewrite fold_left_app. simpl flat_map. rewrite app_nil_r. exact Hc1.
  - exists fg'. auto.
Qed.

Variable vars : list num.
Hypothesis N_ge : 1 <= N.
Hypothesis N_small : 8 * N < size_max.
Hypothesis vars_len : 8 * N - 2 <= Z.of_nat (length vars).

Lemma reference_cost_spec t fg c :
  0 <= t < N -> vget v_fg fg 0 = Ok c ->
  exists fg1, reference_cost N vars t fg = Ok fg1
              /\ length fg1 = length fg
              /\ vget v_fg fg1 0 = Ok (accumulate c (tracking_terms N vars t)).
Proof.
  intros Ht E. layout N.
  unfold reference_cost, tracking_terms, elt. sz_norm.
  rewrite !(vget_ok v_vars vars _ (lit 0)) by lia. cbn [bind].
  destruct (cost_add_spec fg c
              (cte_w * npow (nth (Z.to_nat (cte_start N + t)) vars (lit 0)
                             - ref_cte) 2)%num E)
    as (fg1 & E1 & Hl1 & Hc1).
  rewrite E1. cbn [bind].
  destruct (cost_add_spec fg1 _
              (epsi_w * npow (nth (Z.to_nat (epsi_start N + t)) vars (lit 0)
                              - ref_epsi) 2)%num Hc1)
    as (fg2 & E2 & Hl2 & Hc2).
  rewrite E2. cbn [bind].
  destruct (cost_add_spec fg2 _
              (v_w * npow (nth (Z.to_nat (v_start N + t)) vars (lit 0)
                           - ref_v) 2)%num Hc2)
    as (fg3 & E3 & Hl3 & Hc3).
  exists fg3. split; [exact E3 |]. split; [congruence |]. exact Hc3.
Qed.

Lemma actuator_cost_spec t fg c :
  0 <= t < N - 1 -> vget v_fg fg 0 = Ok c ->
  exists fg1, actuator_cost N vars t fg = Ok fg1
              /\ length fg1 = length fg
              /\ vget v_fg fg1 0 = Ok (accumulate c (actuation_terms N vars t)).
Proof.
  intros Ht E. layout N.
  unfold actuator_cost, actuation_terms, elt. sz_norm.
  rewrite !(vget_ok v_vars vars _ (lit 0)) by lia. cbn [bind].
  destruct (cost_add_spec fg c
              (actuator_w
               * npow (nth (Z.to_nat (delta_start N + t)) vars (lit 0)) 2)%num E)
    as (fg1 & E1 & Hl1 & Hc1).
  rewrite E1. cbn [bind].
  destruct (cost_add_spec fg1 _
              (actuator_w
               * npow (nth (Z.to_nat (a_start N + t)) vars (lit 0)) 2)%num Hc1)
    as (fg2 & E2 & Hl2 & Hc2).
  exists fg2. split; [exact E2 |]. split; [congruence |]. exact Hc2.
Qed.

Lemma change_cost_spec t fg c :
  0 <= t < N - 2 -> vget v_fg fg 0 = Ok c ->
  exists fg1, change_cost N vars t fg = Ok fg1
              /\ length fg1 = length fg
              /\ vget v_fg fg1 0 = Ok (accumulate c (smoothness_terms N vars t)).
Proof.
  intros Ht E. layout N.
  unfold change_cost, smoothness_terms, elt. sz_norm.
  rewrite !(vget_ok v_vars vars _ (lit 0)) by lia. cbn [bind].
  destruct (cost_add_spec fg c
              (change_steer_w
               * npow (nth (Z.to_nat (delta_start N + t + 1)) vars (lit 0)
                       - nth (Z.to_nat (delta_start N + t)) vars (lit 0)) 2)%num E)
    as (fg1 & E1 & Hl1 & Hc1).
  rewrite E1. cbn [bind].
  destruct (cost_add_spec fg1 _
              (change_accel_w
               * npow (nth (Z.to_nat (a_start N + t + 1)) vars (lit 0)
                       - nth (Z.to_nat (a_start N + t)) vars (lit 0)) 2)%num Hc1)
    as (fg2 & E2 & Hl2 & Hc2).
  exists fg2. split; [exact E2 |]. split; [congruence |]. exact Hc2.
Qed.

(** Lines 70-75 as a whole. *)
Lemma reference_loop_spec fg c :
  vget v_fg fg 0 = Ok c ->
  exists fg1,
    for_loop 0 N (reference_cost N vars) fg = Ok fg1
    /\ length fg1 = length fg
    /\ vget v_fg fg1 0
       = Ok (accumulate c (flat_map (tracking_terms N vars) (interval 0 N))).
Proof.
  intros Hc. apply accumulate_loop; [lia | exact Hc |].
  intros t fg' c' Ht _ Hc'. apply reference_cost_spec; assumption.
Qed.

(** Lines 58-91: the cost is reset and the three loops add their terms. *)
Lemma cost_phase (fg : list num) :
  2 <= N ->
  (0 < length fg)%nat ->
  exists fg3,
    (fg0 <- vset v_fg fg 0 (lit 0) ;;
     fg1 <- for_loop 0 N (reference_cost N vars) fg0 ;;
     fg2 <- for_loop 0 (N -' 1) (actuator_cost N vars) fg1 ;;
     for_loop 0 (N -' 2) (change_cost N vars) fg2) = Ok fg3
    /\ length fg3 = length fg
    /\ vget v_fg fg3 0 = Ok (spec_cost N vars).
Proof.
  intros HN Hfg. sz_norm.
  rewrite vset_ok by lia. cbn [bind].
  set (fg0 := upd fg (Z.to_nat 0) (lit 0)).
  assert (Hl0 : length fg0 = length fg) by apply length_upd.
  assert (Hc0 : vget v_fg fg0 0 = Ok (lit 0))
    by (apply vget_upd_same; lia).
  destruct (reference_loop_spec fg0 _ Hc0) as (fg1 & E1 & Hl1 & Hc1).
  rewrite E1. cbn [bind].
  destruct (accumulate_loop (actuation_terms N vars) (actuator_cost N vars)
              0 (N - 1) fg1 _ ltac:(lia) Hc1) as (fg2 & E2 & Hl2 & Hc2).
  { intros t fg' c' Ht _ Hc'. apply actuator_cost_spec; assumption. }
  rewrite E2. cbn [bind].
  destruct (accumulate_loop (smoothness_terms N vars) (change_cost N vars)
              0 (N - 2) fg2 _ ltac:(lia) Hc2) as (fg3 & E3 & Hl3 & Hc3).
  { intros t fg' c' Ht _ Hc'. apply change_cost_spec; assumption. }
  exists fg3. split; [exact E3 |]. split; [congruence |].
  rewrite Hc3. unfold spec_cost, accumulate.
  rewrite !fold_left_app. reflexivity.
Qed.
End CostFacts.

(** ** The constraints *)

Section ConstraintFacts.
Context {num : Type} `{Numeric num}.
Variable N : Z.
Variables coeffs vars : list num.
Hypothesis N_ge : 2 <= N.
Hypothesis N_small : 8 * N < size_max.
Hypothesis vars_len : 8 * N - 2 <= Z.of_nat (length vars).

Lemma initial_phase_spec fg c :
  1 + 6 * N <= Z.of_nat (length fg) ->
  vget v_fg fg 0 = Ok c ->
  exists fg',
    initial_phase N vars fg = Ok fg'
    /\ length fg' = length fg
    /\ vget v_fg fg' 0 = Ok c
    /\ forall k, vget v_fg fg' (1 + start_of N k)
                 = Ok (elt vars (start_of N k)).
Proof.
  intros Hlen Hc. layout N.
  unfold initial_phase, initial_constraint. sz_norm.
  rewrite !(vget_ok v_vars vars _ (lit 0)) by lia. cbn [bind].
  repeat (rewrite vset_ok by (rewrite ?length_upd; lia); cbn [bind]).
  eexists. split; [reflexivity |].
  split; [rewrite !length_upd; reflexivity |].
  split.
  - through_writes. exact Hc.
  - intros k. unfold elt. destruct k; cbn [start_of]; through_writes;
      reflexivity.
Qed.

Hypothesis coeffs_len : (4 <= length coeffs)%nat.

Lemma model_constraints_spec t fg :
  1 <= t < N ->
  1 + 6 * N <= Z.of_nat (length fg) ->
  model_constraints N coeffs vars t fg = Ok (step_writes N coeffs vars t fg).
Proof.
  intros Ht Hlen. layout N.
  unfold model_constraints, step_writes, model_rhs, elt.
  cbn [fold_left start_of]. sz_norm.
  rewrite !(vget_ok v_vars vars _ (lit 0)) by lia.
  rewrite !(vget_ok v_coeffs coeffs _ (lit 0)) by lia.
  cbn [bind].
  repeat (rewrite vset_ok by (rewrite ?length_upd; lia); cbn [bind]).
  reflexivity.
Qed.

Lemma length_step_writes t fg :
  length (step_writes N coeffs vars t fg) = length fg.
Proof.
  unfold step_writes. cbn [fold_left]. rewrite !length_upd. reflexivity.
Qed.

Lemma step_writes_same t fg k :
  1 <= t < N ->
  1 + 6 * N <= Z.of_nat (length fg) ->
  vget v_fg (step_writes N coeffs vars t fg) (1 + start_of N k + t)
  = Ok (elt vars (start_of N k + t) - model_rhs N coeffs vars k t)%num.
Proof.
  intros Ht Hlen. layout N. unfold step_writes. cbn [fold_left].
  destruct k; cbn [start_of]; through_writes; reflexivity.
Qed.

Lemma step_writes_other t fg j :
  1 <= t < N ->
  0 <= j ->
  (forall k, j <> 1 + start_of N k + t) ->
  vget v_fg (step_writes N coeffs vars t fg) j = vget v_fg fg j.
Proof.
  intros Ht Hj Hne. layout N.
  pose proof (Hne cx) as Hx. pose proof (Hne cy) as Hy.
  pose proof (Hne cpsi) as Hpsi. pose proof (Hne cv) as Hv.
  pose proof (Hne ccte) as Hcte. pose proof (Hne cepsi) as Hepsi.
  cbn [start_of] in *.
  unfold step_writes. cbn [fold_left start_of].
  through_writes. reflexivity.
Qed.

(** Lines 108-152: after the loop every step [t] in [1, N) has its six
    residuals in place, and what was written before is still there. *)
Lemma model_loop_spec fg c :
  1 + 6 * N <= Z.of_nat (length fg) ->
  vget v_fg fg 0 = Ok c ->
  (forall k, vget v_fg fg (1 + start_of N k) = Ok (elt vars (start_of N k))) ->
  exists fg',
    for_loop 1 N (model_constraints N coeffs vars) fg = Ok fg'
    /\ length fg' = length fg
    /\ vget v_fg fg' 0 = Ok c
    /\ (forall k, vget v_fg fg' (1 + start_of N k)
                  = Ok (elt vars (start_of N k)))
    /\ (forall k t, 1 <= t < N ->
          vget v_fg fg' (1 + start_of N k + t)
          = Ok (elt vars (start_of N k + t) - model_rhs N coeffs vars k t)%num).
Proof.
  intros Hlen Hc Hinit.
  destruct (for_loop_inv
              (fun n fg0 =>
                 length fg0 = length fg
                 /\ vget v_fg fg0 0 = Ok c
                 /\ (forall k, vget v_fg fg0 (1 + start_of N k)
                               = Ok (elt vars (start_of N k)))
                 /\ (forall k t, 1 <= t < n ->
                       vget v_fg fg0 (1 + start_of N k + t)
                       = Ok (elt vars (start_of N k + t)
                             - model_rhs N coeffs vars k t)%num))
              1 N (model_constraints N coeffs vars) fg ltac:(lia))
    as (fg' & E & Hl & H0 & Hi & Hd).
  - repeat split; auto. intros k t Ht. lia.
  - intros n fg0 Hn (Hl & H0 & Hi & Hd).
    exists (step_writes N coeffs vars n fg0).
    split; [apply model_constraints_spec; [lia | congruence] |].
    layout N.
    split; [rewrite length_step_writes; exact Hl |].
    split; [| split].
    + rewrite step_writes_other; [exact H0 | lia | lia |].
      intros k. destruct k; cbn [start_of]; lia.
    + intros k. rewrite step_writes_other; [apply Hi | lia | |].
      * destruct k; cbn [start_of]; lia.
      * intros k'. destruct k, k'; cbn [start_of]; lia.
    + intros k t Ht.
      destruct (Z.eq_dec t n) as [-> | Hne].
      * apply step_writes_same; [lia | congruence].
      * rewrite step_writes_other; [apply Hd; lia | lia | |].
        -- destruct k; cbn [start_of]; lia.
        -- intros k'. destruct k, k'; cbn [start_of]; lia.
  - exists fg'. auto.
Qed.
End ConstraintFacts.

(** ** The evaluator as a whole *)

Section EvalFacts.
Context {num : Type} `{Numeric num}.
Variable N : Z.
Variables coeffs vars : list num.

Lemma FG_eval_phases fg :
  FG_eval N coeffs fg vars
  = (fg <- cost_phase_run N vars fg ;;
     fg <- initial_phase N vars fg ;;
     for_loop 1 N (model_constraints N coeffs vars) fg).
Proof.
  unfold FG_eval, cost_phase_run, initial_phase.
  repeat match goal with
    | |- context [bind ?r _] =>
        lazymatch r with
        | bind _ _ => fail
        | _ => destruct r; cbn [bind]; [| reflexivity]
        end
    end.
  reflexivity.
Qed.

Hypothesis N_ge : 2 <= N.
Hypothesis N_small : 8 * N < size_max.
Hypothesis vars_len : 8 * N - 2 <= Z.of_nat (length vars).

Lemma prefix_ok fg :
  1 + 6 * N <= Z.of_nat (length fg) ->
  exists fg',
    (fg <- cost_phase_run N vars fg ;; initial_phase N vars fg) = Ok fg'
    /\ length fg' = length fg
    /\ vget v_fg fg' 0 = Ok (spec_cost N vars)
    /\ forall k, vget v_fg fg' (1 + start_of N k)
                 = Ok (elt vars (start_of N k)).
Proof.
  intros Hlen.
  destruct (cost_phase N vars ltac:(lia) N_small vars_len fg N_ge ltac:(lia))
    as (fg3 & E3 & Hl3 & Hc3).
  unfold cost_phase_run. rewrite E3. cbn [bind].
  destruct (initial_phase_spec N vars N_ge N_small vars_len fg3 _
              ltac:(lia) Hc3) as (fg9 & E9 & Hl9 & Hc9 & Hi9).
  exists fg9. split; [exact E9 |]. split; [congruence |]. auto.
Qed.

(** With four coefficients or more the evaluation runs to its end and
    leaves the cost and all [6 * N] constraints in [fg]. *)
Lemma FG_eval_spec fg :
  (4 <= length coeffs)%nat ->
  1 + 6 * N <= Z.of_nat (length fg) ->
  exists fg',
    FG_eval N coeffs fg vars = Ok fg'
    /\ length fg' = length fg
    /\ evaluated N coeffs vars fg'.
Proof.
  intros Hco Hlen. rewrite FG_eval_phases.
  destruct (prefix_ok fg Hlen) as (fg9 & E9 & Hl9 & Hc9 & Hi9).
  destruct (cost_phase_run N vars fg) as [fg3 |]; cbn [bind] in *;
    [| discriminate E9].
  rewrite E9. cbn [bind].
  destruct (model_loop_spec N coeffs vars N_ge N_small vars_len Hco fg9 _
              ltac:(lia) Hc9 Hi9) as (fg' & E' & Hl' & Hc' & Hi' & Hd').
  exists fg'. split; [exact E' |]. split; [congruence |].
  unfold evaluated. auto.
Qed.

(** With fewer than four coefficients the first pass of the last loop
    reads the coefficient vector out of range; with the reads taken left to
    right the first subscript out of range is the length of the vector. *)
Lemma FG_eval_short_coeffs fg :
  (length coeffs < 4)%nat ->
  1 + 6 * N <= Z.of_nat (length fg) ->
  FG_eval N coeffs fg vars = Fault v_coeffs (Z.of_nat (length coeffs)).
Proof.
  intros Hco Hlen. rewrite FG_eval_phases.
  destruct (prefix_ok fg Hlen) as (fg9 & E9 & Hl9 & Hc9 & Hi9).
  destruct (cost_phase_run N vars fg) as [fg3 |]; cbn [bind] in *;
    [| discriminate E9].
  rewrite E9. cbn [bind].
  apply for_loop_first_fault; [lia |].
  layout N. unfold model_constraints. sz_norm.
  rewrite !(vget_ok v_vars vars _ (lit 0)) by lia. cbn [bind].
  destruct coeffs as [| c0 [| c1 [| c2 [| c3 rest]]]]; simpl in Hco;
    try lia; reflexivity.
Qed.
End EvalFacts.

(** ** Solve: sizing and bounding the problem *)

Section SetupFacts.
Context {num : Type} `{Numeric num}.

(** The loop that writes [l] and [u] over a stretch of two vectors. *)
Lemma fill_spec idl idu lo hi (l u : num) lower upper :
  0 <= lo <= hi ->
  hi <= Z.of_nat (length lower) ->
  hi <= Z.of_nat (length upper) ->
  exists lower' upper',
    fill idl idu lo hi l u (lower, upper) = Ok (lower', upper')
    /\ length lower' = length lower
    /\ length upper' = length upper
    /\ (forall id i, lo <= i < hi ->
          vget id lower' i = Ok l /\ vget id upper' i = Ok u)
    /\ (forall id i, 0 <= i -> ~ lo <= i < hi ->
          vget id lower' i = vget id lower i
          /\ vget id upper' i = vget id upper i).
Proof.
  intros Hlo Hl Hu. unfold fill.
  destruct (for_loop_inv
              (fun k (b : list num * list num) =>
                 length (fst b) = length lower
                 /\ length (snd b) = length upper
                 /\ (forall id i, lo <= i < k ->
                       vget id (fst b) i = Ok l /\ vget id (snd b) i = Ok u)
                 /\ (forall id i, 0 <= i -> ~ lo <= i < k ->
                       vget id (fst b) i = vget id lower i
                       /\ vget id (snd b) i = vget id upper i))
              lo hi
              (fun i '(lower, upper) =>
                 lower <- vset idl lower i l ;;
                 upper <- vset idu upper i u ;;
                 Ok (lower, upper))
              (lower, upper) ltac:(lia))
    as ([lower' upper'] & E & Hl' & Hu' & Hin & Hout).
  - cbn [fst snd]. repeat split; auto; lia.
  - intros k [lw up] Hk (Hl' & Hu' & Hin & Hout). cbn [fst snd] in *.
    rewrite !vset_ok by lia. cbn [bind].
    eexists. split; [reflexivity |]. cbn [fst snd].
    rewrite !length_upd.
    split; [exact Hl' |]. split; [exact Hu' |]. split.
    + intros id i Hi. destruct (Z.eq_dec i k) as [-> | Hne].
      * through_writes. auto.
      * through_writes. apply Hin. lia.
    + intros id i Hi0 Hi. through_writes. apply Hout; lia.
  - exists lower', upper'. cbn [fst snd] in *. auto.
Qed.

(** The loop that zeroes the initial guess (lines 186-188). *)
Lemma zero_loop_spec (junk : num) n :
  0 <= n ->
  exists vars,
    for_loop 0 n (fun i vars => vset v_vars vars i (lit 0)) (alloc junk n)
    = Ok vars
    /\ Z.of_nat (length vars) = n
    /\ forall id i, 0 <= i < n -> vget id vars i = Ok (lit 0).
Proof.
  intros Hn.
  destruct (for_loop_inv
              (fun k (v : list num) =>
                 Z.of_nat (length v) = n
                 /\ forall id i, 0 <= i < k -> vget id v i = Ok (lit 0))
              0 n (fun i vars => vset v_vars vars i (lit 0))
              (alloc junk n) Hn) as (vars & E & Hlen & Hz).
  - split; [apply length_alloc; exact Hn | intros; lia].
  - intros k v Hk (Hlen & Hz).
    rewrite vset_ok by lia. eexists. split; [reflexivity |].
    rewrite length_upd. split; [exact Hlen |].
    intros id i Hi. destruct (Z.eq_dec i k) as [-> | Hne].
    + through_writes. reflexivity.
    + through_writes. apply Hz. lia.
  - exists vars. auto.
Qed.

Variable N : Z.
Hypothesis N_ge : 1 <= N.
Hypothesis N_small : 8 * N < size_max.

Lemma Solve_setup_spec junk state coeffs :
  (6 <= length state)%nat ->
  exists p,
    Solve_setup N junk state coeffs = Ok p /\ assembled N state coeffs p.
Proof.
  intros Hst. layout N. unfold Solve_setup.
  rewrite !(vget_ok v_state state _ (lit 0)) by lia. cbn [bind].
  destruct (zero_loop_spec junk (n_vars N) ltac:(lia))
    as (vars & Ev & Hvl & Hvz).
  rewrite Ev. cbn [bind].
  pose proof (length_alloc junk (n_vars N) ltac:(lia)) as Hal.
  destruct (fill_spec v_vars_lowerbound v_vars_upperbound 0 (delta_start N)
              (- float_max)%num float_max
              (alloc junk (n_vars N)) (alloc junk (n_vars N))
              ltac:(lia) ltac:(lia) ltac:(lia))
    as (xl1 & xu1 & E1 & Hl1 & Hu1 & Hin1 & Hout1).
  rewrite E1. cbn [bind].
  destruct (fill_spec v_vars_lowerbound v_vars_upperbound
              (delta_start N) (a_start N)
              (- max_radians)%num max_radians xl1 xu1
              ltac:(lia) ltac:(lia) ltac:(lia))
    as (xl2 & xu2 & E2 & Hl2 & Hu2 & Hin2 & Hout2).
  rewrite E2. cbn [bind].
  destruct (fill_spec v_vars_lowerbound v_vars_upperbound
              (a_start N) (n_vars N)
              (- lit 1)%num (lit 1) xl2 xu2
              ltac:(lia) ltac:(lia) ltac:(lia))
    as (xl3 & xu3 & E3 & Hl3 & Hu3 & Hin3 & Hout3).
  rewrite E3. cbn [bind].
  pose proof (length_alloc junk (n_constraints N) ltac:(lia)) as Hgal.
  destruct (fill_spec v_constraints_lowerbound v_constraints_upperbound
              0 (n_constraints N) (lit 0) (lit 0)
              (alloc junk (n_constraints N)) (alloc junk (n_constraints N))
              ltac:(lia) ltac:(lia) ltac:(lia))
    as (gl & gu & Eg & Hgl & Hgu & Hing & Houtg).
  rewrite Eg. cbn [bind].
  repeat (rewrite vset_ok by (rewrite ?length_upd; lia); cbn [bind]).
  eexists. split; [reflexivity |].
  unfold assembled.
  cbn [nlp_options nlp_fg_eval nlp_xi nlp_xl nlp_xu nlp_gl nlp_gu].
  split; [reflexivity |]. split; [reflexivity |].
  split; [split; [exact Hvl | intros i Hi; apply Hvz; exact Hi] |].
  split.
  - split; [lia |]. split; [lia |]. split; [| split].
    + intros i Hi.
      destruct (Hout3 v_vars_lowerbound i) as [-> _]; [lia | lia |].
      destruct (Hout3 v_vars_upperbound i) as [_ ->]; [lia | lia |].
      destruct (Hout2 v_vars_lowerbound i) as [-> _]; [lia | lia |].
      destruct (Hout2 v_vars_upperbound i) as [_ ->]; [lia | lia |].
      split; apply Hin1; lia.
    + intros i Hi.
      destruct (Hout3 v_vars_lowerbound i) as [-> _]; [lia | lia |].
      destruct (Hout3 v_vars_upperbound i) as [_ ->]; [lia | lia |].
      split; apply Hin2; lia.
    + intros i Hi. split; apply Hin3; lia.
  - rewrite !length_upd. split; [lia |]. split; [lia |]. split.
    + intros k. unfold elt.
      destruct k; cbn [start_of state_index]; split; through_writes;
        reflexivity.
    + intros i Hi Hne.
      pose proof (Hne cx). pose proof (Hne cy). pose proof (Hne cpsi).
      pose proof (Hne cv). pose proof (Hne ccte). pose proof (Hne cepsi).
      cbn [start_of] in *.
      split; through_writes; apply Hing; lia.
Qed.
End SetupFacts.

(** ** Solve: reading the solution *)

Section ExtractFacts.
Context {num : Type} `{Numeric num}.
Variable N : Z.
Hypothesis N_ge : 2 <= N.
Hypothesis N_small : 8 * N < size_max.

Lemma flatten_snoc (l : list (num * num)) a b :
  flatten (l ++ [(a, b)]) = flatten l ++ [a] ++ [b].
Proof. unfold flatten. rewrite flat_map_app. reflexivity. Qed.

Lemma extract_spec sx :
  Z.of_nat (length sx) = n_vars N ->
  extract N sx
  = Ok (elt sx (delta_start N) :: elt sx (a_start N)
          :: flatten (predicted_trajectory N sx)).
Proof.
  intros Hlen. layout N. unfold extract. sz_norm.
  rewrite !(vget_ok v_solution_x sx _ (lit 0)) by lia. cbn [bind].
  fold (elt sx (delta_start N)). fold (elt sx (a_start N)).
  set (head := [elt sx (delta_start N); elt sx (a_start N)]).
  destruct (for_loop_inv
              (fun k (r : list num) =>
                 r = head ++ flatten (map (predicted_point N sx)
                                        (interval 1 (k + 1))))
              0 (N - 1)
              (fun i result =>
                 xi <- vget v_solution_x sx (x_start +' i +' 1) ;;
                 yi <- vget v_solution_x sx (y_start N +' i +' 1) ;;
                 Ok (result ++ [xi] ++ [yi]))
              head ltac:(lia)) as (r & E & Hr).
  - rewrite interval_empty by lia. reflexivity.
  - intros k r Hk ->. sz_norm.
    rewrite !(vget_ok v_solution_x sx _ (lit 0)) by lia. cbn [bind].
    eexists. split; [reflexivity |].
    rewrite (interval_snoc 1 (k + 1)) by lia.
    rewrite map_app. cbn [map].
    change (predicted_point N sx (k + 1))
      with (elt sx (x_start + (k + 1)), elt sx (y_start N + (k + 1))).
    rewrite flatten_snoc, <- !app_assoc. unfold elt.
    rewrite !Z.add_assoc. reflexivity.
  - rewrite E. f_equal. rewrite Hr.
    replace (N - 1 + 1) with N by lia. reflexivity.
Qed.
End ExtractFacts.

(** ** Horizons below 2 *)

Section ShortHorizon.
Context {num : Type} `{Numeric num}.
Variables coeffs fg vars : list num.

(** [N = 1]: the bound [N - 2] of the third loop wraps to [2^64 - 1]; its
    first pass reads [vars[delta_start + 1]], one entry behind the six that
    a horizon of 1 has. *)
Lemma FG_eval_horizon_1 :
  Z.of_nat (length fg) = 1 + n_constraints 1 ->
  Z.of_nat (length vars) = n_vars 1 ->
  FG_eval 1 coeffs fg vars = Fault v_vars 7.
Proof.
  intros Hfg Hvars.
  assert (H1 : 1 <= 1) by lia.
  assert (Hs : 8 * 1 < size_max) by reflexivity.
  layout 1. unfold FG_eval.
  rewrite vset_ok by lia. cbn [bind].
  destruct (reference_loop_spec 1 vars H1 Hs ltac:(lia)
              (upd fg (Z.to_nat 0) (lit 0)) (lit 0))
    as (fg1 & E1 & Hl1 & Hc1).
  { apply vget_upd_same. lia. }
  rewrite E1. cbn [bind].
  rewrite (for_loop_empty 0 (1 -' 1)) by (sz_norm; lia). cbn [bind].
  rewrite (for_loop_first_fault 0 (1 -' 2) _ fg1 v_vars 7);
    [reflexivity | rewrite sz_sub_wraps; zlia |].
  unfold change_cost. sz_norm. rewrite Ldelta.
  rewrite vget_fault by lia. reflexivity.
Qed.

(** [N = 0]: already the bound [N - 1] of the second loop wraps; its first
    pass reads [vars[a_start]] with [a_start = 2^64 - 1]. *)
Lemma FG_eval_horizon_0 :
  Z.of_nat (length fg) = 1 + n_constraints 0 ->
  Z.of_nat (length vars) = n_vars 0 ->
  FG_eval 0 coeffs fg vars = Fault v_vars (size_max - 1).
Proof.
  intros Hfg Hvars.
  change (n_constraints 0) with 0 in Hfg.
  change (n_vars 0) with (size_max - 2) in Hvars.
  unfold FG_eval.
  rewrite vset_ok by lia. cbn [bind].
  rewrite (for_loop_empty 0 0) by lia. cbn [bind].
  rewrite (for_loop_first_fault 0 (0 -' 1) _ _ v_vars (size_max - 1));
    [reflexivity | rewrite sz_sub_wraps; zlia |].
  unfold actuator_cost.
  change (delta_start 0 +' 0) with 0.
  change (a_start 0 +' 0) with (size_max - 1).
  rewrite (vget_ok v_vars vars 0 (lit 0)) by zlia. cbn [bind].
  destruct (cost_add_spec (upd fg (Z.to_nat 0) (lit 0)) (lit 0)
              (actuator_w * npow (nth (Z.to_nat 0) vars (lit 0)) 2)%num)
    as (fg1 & E1 & _).
  { apply vget_upd_same. lia. }
  rewrite E1. cbn [bind].
  rewrite vget_fault by zlia. reflexivity.
Qed.
End ShortHorizon.

(** * The claims *)

(** The sizes the theorems assume are those [Solve] computes: [vars] has
    [n_vars N] entries and [fg] has one entry for the cost and
    [n_constraints N] for the constraints.  [8 * N < size_max] says that no
    offset wraps; the source has [N = 10]. *)

(** ** C3: the cost *)

(** C3.  Whatever [fg] held before, an evaluation leaves in [fg[0]] the value
    obtained by starting from 0 and adding, in this order, the three tracking
    terms of every step in [0, N), the two actuation terms of every step in
    [0, N - 1) and the two smoothness terms of every step in [0, N - 2), with
    the weights 1500, 2000, 1, 10, 1000 and 10. *)
Theorem cost_reset_then_accumulated {num : Type} `{Numeric num}
    (N : Z) (coeffs fg vars : list num) :
  2 <= N -> 8 * N < size_max ->
  (4 <= length coeffs)%nat ->
  Z.of_nat (length fg) = 1 + n_constraints N ->
  Z.of_nat (length vars) = n_vars N ->
  exists fg',
    FG_eval N coeffs fg vars = Ok fg'
    /\ vget v_fg fg' 0 = Ok (spec_cost N vars).
Proof.
  intros HN Hsmall Hco Hfg Hvars. layout N.
  destruct (FG_eval_spec N coeffs vars HN Hsmall ltac:(lia) fg Hco ltac:(lia))
    as (fg' & E & _ & Hcost & _).
  exists fg'. split; [exact E | exact Hcost].
Qed.

Lemma cost_reset_then_accumulated_witness :
  exists fg',
    FG_eval 10 [1; 0; 0; 0]%R (repeat 7%R 61) (repeat 0%R 78) = Ok fg'
    /\ vget v_fg fg' 0 = Ok (spec_cost 10 (repeat 0%R 78)).
Proof.
  apply (cost_reset_then_accumulated 10);
    [lia | reflexivity | simpl; lia | reflexivity | reflexivity].
Defined.

(** ** C5: the bounds of the variables *)

(** C5.  In the problem [Solve] assembles, every subscript below
    [delta_start] is bounded by [-float_max] and [float_max], every subscript
    in [delta_start, a_start) by [-max_radians] and [max_radians], where
    [max_radians] is [25 * M_PI / 180], and every subscript in
    [a_start, n_vars) by [-1] and [1]. *)
Theorem variable_bounds {num : Type} `{Numeric num}
    (N : Z) (junk : num) (state coeffs : list num) :
  1 <= N -> 8 * N < size_max ->
  (6 <= length state)%nat ->
  exists p,
    Solve_setup N junk state coeffs = Ok p
    /\ Z.of_nat (length (nlp_xl p)) = n_vars N
    /\ Z.of_nat (length (nlp_xu p)) = n_vars N
    /\ (forall i, 0 <= i < delta_start N ->
          vget v_vars_lowerbound (nlp_xl p) i = Ok (- float_max)%num
          /\ vget v_vars_upperbound (nlp_xu p) i = Ok float_max)
    /\ (forall i, delta_start N <= i < a_start N ->
          vget v_vars_lowerbound (nlp_xl p) i
          = Ok (- (lit 25 * M_PI / lit 180))%num
          /\ vget v_vars_upperbound (nlp_xu p) i
             = Ok (lit 25 * M_PI / lit 180)%num)
    /\ (forall i, a_start N <= i < n_vars N ->
          vget v_vars_lowerbound (nlp_xl p) i = Ok (- lit 1)%num
          /\ vget v_vars_upperbound (nlp_xu p) i = Ok (lit 1)).
Proof.
  intros HN Hsmall Hst.
  destruct (Solve_setup_spec N HN Hsmall junk state coeffs Hst)
    as (p & E & _ & _ & _ & (Hl & Hu & Hs & Hd & Ha) & _).
  exists p. split; [exact E |]. repeat split; auto; try apply Hs;
    try apply Hd; try apply Ha; auto.
Qed.

Lemma variable_bounds_witness :
  exists p,
    Solve_setup 10 0%R [1; 2; 3; 4; 5; 6]%R [0; 0; 0; 0]%R = Ok p
    /\ Z.of_nat (length (nlp_xl p)) = n_vars 10
    /\ Z.of_nat (length (nlp_xu p)) = n_vars 10
    /\ (forall i, 0 <= i < delta_start 10 ->
          vget v_vars_lowerbound (nlp_xl p) i = Ok (- float_max)%num
          /\ vget v_vars_upperbound (nlp_xu p) i = Ok float_max)
    /\ (forall i, delta_start 10 <= i < a_start 10 ->
          vget v_vars_lowerbound (nlp_xl p) i
          = Ok (- (lit 25 * M_PI / lit 180))%num
          /\ vget v_vars_upperbound (nlp_xu p) i
             = Ok (lit 25 * M_PI / lit 180)%num)
    /\ (forall i, a_start 10 <= i < n_vars 10 ->
          vget v_vars_lowerbound (nlp_xl p) i = Ok (- lit 1)%num
          /\ vget v_vars_upperbound (nlp_xu p) i = Ok (lit 1)).
Proof.
  apply (variable_bounds 10); [lia | reflexivity | simpl; lia].
Defined.

(** ** C7: one layout for the evaluator and the solver *)

(** C7.  The offsets, computed from [N] alone, cut a vector of
    [n_vars N = N * 6 + (N - 1) * 2] entries into six consecutive blocks of
    length [N] (x, y, psi, v, cte, epsi, from offset 0) and two of length
    [N - 1] (delta, a); there are [N * 6] constraints.  [Solve] sizes the
    initial guess and both pairs of bounds with these numbers and hands
    [FG_eval] to the solver.  Both sides go through the same offsets:
    - [FG_eval] leaves in [fg] what [evaluated] says: the cost read from the
      cte, epsi, v, delta and a blocks of [vars], and at [fg[1 + start + t]]
      the constraint of the component whose block begins at [start], read
      from the blocks of [vars] at steps [t] and [t - 1];
    - [Solve] pins the constraints at these same six [start]s to the
      components of [state], bounds the entries of the six state blocks by
      [float_max], those of the delta block by [max_radians] and those of
      the a block by 1, and reads the solution at [delta_start], [a_start]
      and in the x and y blocks. *)
Theorem layout_shared {num : Type} `{Numeric num}
    (N : Z) (junk : num) (state coeffs : list num) :
  2 <= N -> 8 * N < size_max ->
  (6 <= length state)%nat ->
  (4 <= length coeffs)%nat ->
  (x_start = 0
   /\ y_start N = x_start + N
   /\ psi_start N = y_start N + N
   /\ v_start N = psi_start N + N
   /\ cte_start N = v_start N + N
   /\ epsi_start N = cte_start N + N
   /\ delta_start N = epsi_start N + N
   /\ a_start N = delta_start N + (N - 1)
   /\ n_vars N = a_start N + (N - 1))
  /\ n_vars N = N * 6 + (N - 1) * 2
  /\ n_constraints N = N * 6
  /\ exists p,
      Solve_setup N junk state coeffs = Ok p
      /\ Z.of_nat (length (nlp_xi p)) = n_vars N
      /\ Z.of_nat (length (nlp_xl p)) = n_vars N
      /\ Z.of_nat (length (nlp_xu p)) = n_vars N
      /\ Z.of_nat (length (nlp_gl p)) = n_constraints N
      /\ Z.of_nat (length (nlp_gu p)) = n_constraints N
      /\ nlp_fg_eval p = FG_eval N coeffs
      /\ (forall fg vars,
            Z.of_nat (length fg) = 1 + n_constraints N ->
            Z.of_nat (length vars) = n_vars N ->
            exists fg', nlp_fg_eval p fg vars = Ok fg'
                        /\ length fg' = length fg
                        /\ evaluated N coeffs vars fg')
      /\ (forall k,
            vget v_constraints_lowerbound (nlp_gl p) (start_of N k)
            = Ok (elt state (state_index k))
            /\ vget v_constraints_upperbound (nlp_gu p) (start_of N k)
               = Ok (elt state (state_index k)))
      /\ (forall k t, 0 <= t < N ->
            vget v_vars_lowerbound (nlp_xl p) (start_of N k + t)
            = Ok (- float_max)%num
            /\ vget v_vars_upperbound (nlp_xu p) (start_of N k + t)
               = Ok float_max)
      /\ (forall t, 0 <= t < N - 1 ->
            vget v_vars_lowerbound (nlp_xl p) (delta_start N + t)
            = Ok (- max_radians)%num
            /\ vget v_vars_upperbound (nlp_xu p) (delta_start N + t)
               = Ok max_radians
            /\ vget v_vars_lowerbound (nlp_xl p) (a_start N + t)
               = Ok (- lit 1)%num
            /\ vget v_vars_upperbound (nlp_xu p) (a_start N + t)
               = Ok (lit 1))
      /\ (forall sx : list num,
            Z.of_nat (length sx) = n_vars N ->
            extract N sx
            = Ok (elt sx (delta_start N) :: elt sx (a_start N)
                    :: flatten (predicted_trajectory N sx))).
Proof.
  intros HN Hsmall Hst Hco. layout N.
  split; [repeat split; lia |]. split; [lia |]. split; [lia |].
  destruct (Solve_setup_spec N ltac:(lia) Hsmall junk state coeffs Hst)
    as (p & E & _ & Hfg & (Hxi & _) & (Hxl & Hxu & Hs & Hd & Ha)
        & (Hgl & Hgu & Hpin & _)).
  exists p. repeat (split; [assumption |]).
  split; [| split; [exact Hpin | split; [| split]]].
  - intros fg vars Hlfg Hlvars. rewrite Hfg.
    destruct (FG_eval_spec N coeffs vars HN Hsmall ltac:(lia) fg Hco
                ltac:(lia)) as (fg' & E' & Hl' & Hev).
    exists fg'. split; [exact E' |]. split; [exact Hl' | exact Hev].
  - intros k t Ht. apply Hs. destruct k; cbn [start_of]; lia.
  - intros t Ht.
    destruct (Hd (delta_start N + t) ltac:(lia)) as [Hd1 Hd2].
    destruct (Ha (a_start N + t) ltac:(lia)) as [Ha1 Ha2].
    auto.
  - intros sx Hsx. apply (extract_spec N HN Hsmall). exact Hsx.
Qed.

Lemma layout_shared_witness :
  (x_start = 0
   /\ y_start 10 = x_start + 10
   /\ psi_start 10 = y_start 10 + 10
   /\ v_start 10 = psi_start 10 + 10
   /\ cte_start 10 = v_start 10 + 10
   /\ epsi_start 10 = cte_start 10 + 10
   /\ delta_start 10 = epsi_start 10 + 10
   /\ a_start 10 = delta_start 10 + (10 - 1)
   /\ n_vars 10 = a_start 10 + (10 - 1))
  /\ n_vars 10 = 10 * 6 + (10 - 1) * 2
  /\ n_constraints 10 = 10 * 6
  /\ exists p,
      Solve_setup 10 0%R [1; 2; 3; 4; 5; 6]%R [0; 0; 0; 0]%R = Ok p
      /\ Z.of_nat (length (nlp_xi p)) = n_vars 10
      /\ Z.of_nat (length (nlp_xl p)) = n_vars 10
      /\ Z.of_nat (length (nlp_xu p)) = n_vars 10
      /\ Z.of_nat (length (nlp_gl p)) = n_constraints 10
      /\ Z.of_nat (length (nlp_gu p)) = n_constraints 10
      /\ nlp_fg_eval p = FG_eval 10 [0; 0; 0; 0]%R
      /\ (forall fg vars,
            Z.of_nat (length fg) = 1 + n_constraints 10 ->
            Z.of_nat (length vars) = n_vars 10 ->
            exists fg', nlp_fg_eval p fg vars = Ok fg'
                        /\ length fg' = length fg
                        /\ evaluated 10 [0; 0; 0; 0]%R vars fg')
      /\ (forall k,
            vget v_constraints_lowerbound (nlp_gl p) (start_of 10 k)
            = Ok (elt [1; 2; 3; 4; 5; 6]%R (state_index k))
            /\ vget v_constraints_upperbound (nlp_gu p) (start_of 10 k)
               = Ok (elt [1; 2; 3; 4; 5; 6]%R (state_index k)))
      /\ (forall k t, 0 <= t < 10 ->
            vget v_vars_lowerbound (nlp_xl p) (start_of 10 k + t)
            = Ok (- float_max)%num
            /\ vget v_vars_upperbound (nlp_xu p) (start_of 10 k + t)
               = Ok float_max)
      /\ (forall t, 0 <= t < 10 - 1 ->
            vget v_vars_lowerbound (nlp_xl p) (delta_start 10 + t)
            = Ok (- max_radians)%num
            /\ vget v_vars_upperbound (nlp_xu p) (delta_start 10 + t)
               = Ok max_radians
            /\ vget v_vars_lowerbound (nlp_xl p) (a_start 10 + t)
               = Ok (- lit 1)%num
            /\ vget v_vars_upperbound (nlp_xu p) (a_start 10 + t)
               = Ok (lit 1))
      /\ (forall sx : list R,
            Z.of_nat (length sx) = n_vars 10 ->
            extract 10 sx
            = Ok (elt sx (delta_start 10) :: elt sx (a_start 10)
                    :: flatten (predicted_trajectory 10 sx))).
Proof.
  apply (layout_shared 10); [lia | reflexivity | simpl; lia | simpl; lia].
Defined.

(** ** C6: what Solve returns *)

(** C6.  When the solver returns a vector of [n_vars N] entries, [Solve]
    returns, in one flat vector, the first [delta], the first [a], and after
    them the [N - 1] pairs [(x[t], y[t])] for [t = 1, ..., N - 1] in this
    order. *)
Theorem returned_vector {num : Type} `{Numeric num}
    (N : Z) (ipopt_solve : nlp num -> solve_result num) (junk : num)
    (state coeffs : list num) :
  2 <= N -> 8 * N < size_max ->
  (6 <= length state)%nat ->
  (forall p, Z.of_nat (length (x (ipopt_solve p))) = n_vars N) ->
  exists p,
    Solve_setup N junk state coeffs = Ok p
    /\ Solve N ipopt_solve junk state coeffs
       = Ok (elt (x (ipopt_solve p)) (delta_start N + 0)
               :: elt (x (ipopt_solve p)) (a_start N + 0)
               :: flatten (predicted_trajectory N (x (ipopt_solve p))))
    /\ Z.of_nat (length (predicted_trajectory N (x (ipopt_solve p)))) = N - 1
    /\ forall j d,
        0 <= j < N - 1 ->
        nth (Z.to_nat j) (predicted_trajectory N (x (ipopt_solve p))) d
        = (elt (x (ipopt_solve p)) (x_start + (1 + j)),
           elt (x (ipopt_solve p)) (y_start N + (1 + j))).
Proof.
  intros HN Hsmall Hst Hsol.
  destruct (Solve_setup_spec N ltac:(lia) Hsmall junk state coeffs Hst)
    as (p & E & _).
  exists p. split; [exact E |]. split; [| split].
  - unfold Solve, Solve_frame. rewrite E. cbn [bind].
    rewrite (extract_spec N HN Hsmall _ (Hsol p)). cbn [bind returned].
    rewrite !Z.add_0_r. reflexivity.
  - unfold predicted_trajectory. rewrite length_map.
    rewrite length_interval by lia. lia.
  - intros j d Hj. unfold predicted_trajectory, interval.
    rewrite (nth_indep _ d (predicted_point N (x (ipopt_solve p)) 0))
      by (rewrite !length_map, length_seq; lia).
    rewrite (map_nth (predicted_point N (x (ipopt_solve p)))).
    rewrite (nth_indep _ 0 (1 + Z.of_nat 0))
      by (rewrite length_map, length_seq; lia).
    rewrite (map_nth (fun k => 1 + Z.of_nat k)).
    rewrite seq_nth by lia.
    unfold predicted_point. repeat f_equal; lia.
Qed.

Lemma returned_vector_witness :
  exists p,
    Solve_setup 10 0%R [1; 2; 3; 4; 5; 6]%R [0; 0; 0; 0]%R = Ok p
    /\ Solve 10
         (fun _ => {| status := success; x := repeat 0%R 78; obj_value := 0%R |})
         0%R [1; 2; 3; 4; 5; 6]%R [0; 0; 0; 0]%R
       = Ok (elt (repeat 0%R 78) (delta_start 10 + 0)
               :: elt (repeat 0%R 78) (a_start 10 + 0)
               :: flatten (predicted_trajectory 10 (repeat 0%R 78)))
    /\ Z.of_nat (length (predicted_trajectory 10 (repeat 0%R 78))) = 10 - 1
    /\ forall j d,
        0 <= j < 10 - 1 ->
        nth (Z.to_nat j) (predicted_trajectory 10 (repeat 0%R 78)) d
        = (elt (repeat 0%R 78) (x_start + (1 + j)),
           elt (repeat 0%R 78) (y_start 10 + (1 + j))).
Proof.
  apply (returned_vector 10
           (fun _ => {| status := success; x := repeat 0%R 78;
                        obj_value := 0%R |}));
    [lia | reflexivity | simpl; lia | intros p; reflexivity].
Defined.

(** ** C10: only four coefficients count *)

Lemma model_constraints_coeffs {num : Type} `{Numeric num}
    (N : Z) (c1 c2 vars : list num) :
  (4 <= length c1)%nat -> (4 <= length c2)%nat ->
  firstn 4 c1 = firstn 4 c2 ->
  forall t fg,
    model_constraints N c1 vars t fg = model_constraints N c2 vars t fg.
Proof.
  intros H1 H2 Heq t fg.
  destruct c1 as [| a0 [| a1 [| a2 [| a3 r1]]]]; simpl in H1; try lia.
  destruct c2 as [| b0 [| b1 [| b2 [| b3 r2]]]]; simpl in H2; try lia.
  simpl in Heq. injection Heq as -> -> -> ->.
  reflexivity.
Qed.

(** C10.  Two coefficient vectors of at least four entries that agree on
    entries 0 to 3 give the same outcome of the evaluation, cost and
    constraints alike: whatever lies behind the cubic coefficient is never
    read, and never refused. *)
Theorem only_four_coefficients {num : Type} `{Numeric num}
    (N : Z) (coeffs1 coeffs2 fg vars : list num) :
  (4 <= length coeffs1)%nat -> (4 <= length coeffs2)%nat ->
  firstn 4 coeffs1 = firstn 4 coeffs2 ->
  FG_eval N coeffs1 fg vars = FG_eval N coeffs2 fg vars.
Proof.
  intros H1 H2 Heq. rewrite !FG_eval_phases.
  destruct (cost_phase_run N vars fg) as [fg3 |]; cbn [bind];
    [| reflexivity].
  destruct (initial_phase N vars fg3) as [fg9 |]; cbn [bind];
    [| reflexivity].
  apply for_loop_ext. apply model_constraints_coeffs; assumption.
Qed.

Lemma only_four_coefficients_witness :
  FG_eval 10 [1; 2; 3; 4; 5; 6]%R (repeat 0%R 61) (repeat 0%R 78)
  = FG_eval 10 [1; 2; 3; 4]%R (repeat 0%R 61) (repeat 0%R 78).
Proof.
  apply (only_four_coefficients 10); [simpl; lia | simpl; lia | reflexivity].
Defined.

(** ** C4: the bounds of the constraints *)

(** C4.  In the problem [Solve] assembles, the lower and the upper bound of
    the constraint at each of the six offsets [x_start], ..., [epsi_start]
    are both the matching component of [state], and both bounds of every
    other constraint are 0.  So a point that the evaluator maps between these
    bounds has, at the six offsets, exactly the components of [state]. *)
Theorem initial_state_pinned {num : Type} `{Numeric num}
    (N : Z) (junk : num) (state coeffs : list num)
    (le : num -> num -> Prop) :
  2 <= N -> 8 * N < size_max ->
  (6 <= length state)%nat ->
  (4 <= length coeffs)%nat ->
  (forall a b, le a b -> le b a -> a = b) ->
  exists p,
    Solve_setup N junk state coeffs = Ok p
    /\ Z.of_nat (length (nlp_gl p)) = n_constraints N
    /\ Z.of_nat (length (nlp_gu p)) = n_constraints N
    /\ (forall k,
          vget v_constraints_lowerbound (nlp_gl p) (start_of N k)
          = Ok (elt state (state_index k))
          /\ vget v_constraints_upperbound (nlp_gu p) (start_of N k)
             = Ok (elt state (state_index k)))
    /\ (forall i, 0 <= i < n_constraints N ->
          (forall k, i <> start_of N k) ->
          vget v_constraints_lowerbound (nlp_gl p) i = Ok (lit 0)
          /\ vget v_constraints_upperbound (nlp_gu p) i = Ok (lit 0))
    /\ (forall fg vars fg',
          Z.of_nat (length fg) = 1 + n_constraints N ->
          Z.of_nat (length vars) = n_vars N ->
          nlp_fg_eval p fg vars = Ok fg' ->
          feasible le (nlp_gl p) (nlp_gu p) fg' ->
          forall k, elt vars (start_of N k) = elt state (state_index k)).
Proof.
  intros HN Hsmall Hst Hco Hanti. layout N.
  destruct (Solve_setup_spec N ltac:(lia) Hsmall junk state coeffs Hst)
    as (p & E & _ & Hfg & _ & _ & (Hgl & Hgu & Hpin & Hzero)).
  exists p. repeat (split; [assumption |]).
  intros fg vars fg' Hlfg Hlvars Heval Hfeas k.
  rewrite Hfg in Heval.
  destruct (FG_eval_spec N coeffs vars HN Hsmall ltac:(lia) fg Hco ltac:(lia))
    as (fg'' & E'' & _ & _ & Hid & _).
  assert (fg'' = fg') by congruence. subst fg''.
  destruct (Hpin k) as [Hlo Hup].
  destruct (Hfeas (start_of N k) _ _ _ (Hid k) Hlo Hup) as [H1 H2].
  apply Hanti; assumption.
Qed.

Lemma initial_state_pinned_witness :
  exists p,
    Solve_setup 10 0%R [1; 2; 3; 4; 5; 6]%R [0; 0; 0; 0]%R = Ok p
    /\ Z.of_nat (length (nlp_gl p)) = n_constraints 10
    /\ Z.of_nat (length (nlp_gu p)) = n_constraints 10
    /\ (forall k,
          vget v_constraints_lowerbound (nlp_gl p) (start_of 10 k)
          = Ok (elt [1; 2; 3; 4; 5; 6]%R (state_index k))
          /\ vget v_constraints_upperbound (nlp_gu p) (start_of 10 k)
             = Ok (elt [1; 2; 3; 4; 5; 6]%R (state_index k)))
    /\ (forall i, 0 <= i < n_constraints 10 ->
          (forall k, i <> start_of 10 k) ->
          vget v_constraints_lowerbound (nlp_gl p) i = Ok (lit 0)
          /\ vget v_constraints_upperbound (nlp_gu p) i = Ok (lit 0))
    /\ (forall fg vars fg',
          Z.of_nat (length fg) = 1 + n_constraints 10 ->
          Z.of_nat (length vars) = n_vars 10 ->
          nlp_fg_eval p fg vars = Ok fg' ->
          feasible Rle (nlp_gl p) (nlp_gu p) fg' ->
          forall k,
            elt vars (start_of 10 k)
            = elt [1; 2; 3; 4; 5; 6]%R (state_index k)).
Proof.
  apply (initial_state_pinned 10 0%R [1; 2; 3; 4; 5; 6]%R [0; 0; 0; 0]%R Rle);
    [lia | reflexivity | simpl; lia | simpl; lia | exact Rle_antisym].
Defined.

(** ** C2: the constraints *)

Lemma lit_R_2 : @lit R _ 2 = 2%R.
Proof. cbn. unfold Q2R. simpl. field. Qed.

Lemma lit_R_3 : @lit R _ 3 = 3%R.
Proof. cbn. unfold Q2R. simpl. field. Qed.

(** [poly'] is the slope of the path: the derivative of [poly]. *)
Lemma poly_slope (c : list R) (x0 : R) :
  derivable_pt_lim (poly c) x0 (poly' c x0).
Proof.
  unfold poly'.
  replace (elt c 1 + 2 * elt c 2 * x0 + 3 * elt c 3 * x0 ^ 2)%R
    with (0 + elt c 1 * 1 + elt c 2 * (INR 2 * x0 ^ Nat.pred 2)
          + elt c 3 * (INR 3 * x0 ^ Nat.pred 3))%R
    by (simpl; ring).
  change (poly c)
    with (fct_cte (elt c 0) + mult_real_fct (elt c 1) id
          + mult_real_fct (elt c 2) (fun y => y ^ 2)%R
          + mult_real_fct (elt c 3) (fun y => y ^ 3)%R)%F.
  repeat apply derivable_pt_lim_plus.
  - apply derivable_pt_lim_const.
  - apply derivable_pt_lim_scal. apply derivable_pt_lim_id.
  - apply derivable_pt_lim_scal. apply derivable_pt_lim_pow.
  - apply derivable_pt_lim_scal. apply derivable_pt_lim_pow.
Qed.

(** Over the real numbers the right-hand sides the source computes are
    those of the spec's bicycle model. *)
Lemma model_rhs_bicycle (N : Z) (coeffs vars : list R) k t :
  model_rhs N coeffs vars k t
  = bicycle_model coeffs
      (elt vars (x_start + (t - 1))) (elt vars (y_start N + (t - 1)))
      (elt vars (psi_start N + (t - 1))) (elt vars (v_start N + (t - 1)))
      (elt vars (cte_start N + (t - 1))) (elt vars (epsi_start N + (t - 1)))
      (elt vars (delta_start N + (t - 1))) (elt vars (a_start N + (t - 1)))
      k.
Proof.
  unfold model_rhs, bicycle_model, poly, poly'.
  rewrite <- !Z.add_sub_assoc.
  generalize (elt vars (x_start + (t - 1))) (elt vars (y_start N + (t - 1)))
    (elt vars (psi_start N + (t - 1))) (elt vars (v_start N + (t - 1)))
    (elt vars (epsi_start N + (t - 1)))
    (elt vars (delta_start N + (t - 1))) (elt vars (a_start N + (t - 1)))
    (elt coeffs 0) (elt coeffs 1) (elt coeffs 2) (elt coeffs 3).
  intros x0 y0 psi0 v0 epsi0 delta0 a0 c0 c1 c2 c3.
  rewrite lit_R_2, lit_R_3.
  cbn [nadd nsub nmul ndiv natan ncos nsin Numeric_R].
  replace (c1 + 2 * c2 * x0 + 3 * c3 * x0 * x0)%R
    with (c1 + 2 * c2 * x0 + 3 * c3 * x0 ^ 2)%R by ring.
  destruct k; try reflexivity.
  - unfold Rdiv. ring.
  - ring.
Qed.

(** C2.  Over the real numbers: after an evaluation the six constraints of
    step 0 are the decision variables at the six offsets themselves, and for
    every step [t] in [1, N) the constraint of each component is the variable
    of that component at [t] minus the spec's bicycle model applied to the
    variables and actuators of step [t - 1]; in particular
    [psi0 - v0 / Lf * delta0 * dt] for psi and
    [(psi0 - psides0) - v0 * delta0 / Lf * dt] for epsi, with
    [f0 = poly(x0)] and [psides0 = atan(poly'(x0))]. *)
Theorem dynamics_constraints (N : Z) (coeffs fg vars : list R) :
  2 <= N -> 8 * N < size_max ->
  (4 <= length coeffs)%nat ->
  Z.of_nat (length fg) = 1 + n_constraints N ->
  Z.of_nat (length vars) = n_vars N ->
  exists fg',
    FG_eval N coeffs fg vars = Ok fg'
    /\ (forall k, vget v_fg fg' (1 + start_of N k)
                  = Ok (elt vars (start_of N k)))
    /\ (forall k t, 1 <= t < N ->
          vget v_fg fg' (1 + start_of N k + t)
          = Ok (elt vars (start_of N k + t)
                - bicycle_model coeffs
                    (elt vars (x_start + (t - 1)))
                    (elt vars (y_start N + (t - 1)))
                    (elt vars (psi_start N + (t - 1)))
                    (elt vars (v_start N + (t - 1)))
                    (elt vars (cte_start N + (t - 1)))
                    (elt vars (epsi_start N + (t - 1)))
                    (elt vars (delta_start N + (t - 1)))
                    (elt vars (a_start N + (t - 1)))
                    k)%R).
Proof.
  intros HN Hsmall Hco Hfg Hvars. layout N.
  destruct (FG_eval_spec N coeffs vars HN Hsmall ltac:(lia) fg Hco ltac:(lia))
    as (fg' & E & _ & _ & Hid & Hdyn).
  exists fg'. split; [exact E |]. split; [exact Hid |].
  intros k t Ht. rewrite (Hdyn k t Ht), model_rhs_bicycle. reflexivity.
Qed.

Lemma dynamics_constraints_witness :
  exists fg',
    FG_eval 10 [1; 0; 0; 0]%R (repeat 7%R 61) (repeat 0%R 78) = Ok fg'
    /\ (forall k, vget v_fg fg' (1 + start_of 10 k)
                  = Ok (elt (repeat 0%R 78) (start_of 10 k)))
    /\ (forall k t, 1 <= t < 10 ->
          vget v_fg fg' (1 + start_of 10 k + t)
          = Ok (elt (repeat 0%R 78) (start_of 10 k + t)
                - bicycle_model [1; 0; 0; 0]%R
                    (elt (repeat 0%R 78) (x_start + (t - 1)))
                    (elt (repeat 0%R 78) (y_start 10 + (t - 1)))
                    (elt (repeat 0%R 78) (psi_start 10 + (t - 1)))
                    (elt (repeat 0%R 78) (v_start 10 + (t - 1)))
                    (elt (repeat 0%R 78) (cte_start 10 + (t - 1)))
                    (elt (repeat 0%R 78) (epsi_start 10 + (t - 1)))
                    (elt (repeat 0%R 78) (delta_start 10 + (t - 1)))
                    (elt (repeat 0%R 78) (a_start 10 + (t - 1)))
                    k)%R).
Proof.
  apply (dynamics_constraints 10);
    [lia | reflexivity | simpl; lia | reflexivity | reflexivity].
Defined.

(** ** C1: the status of the solver *)

(** C1 (what the code does).  [Solve] compares the status of the solver with
    [success] and keeps the answer in the local flag [ok], but the vector it
    returns does not depend on the status: replace the status the solver
    reports by any other, and [Solve] returns the same outcome. *)
Theorem Solve_ignores_status {num : Type} `{Numeric num}
    (N : Z) (ipopt_solve : nlp num -> solve_result num) (st : status_type)
    (junk : num) (state coeffs : list num) :
  Solve N
    (fun p => {| status := st;
                 x := x (ipopt_solve p);
                 obj_value := obj_value (ipopt_solve p) |})
    junk state coeffs
  = Solve N ipopt_solve junk state coeffs
  /\ forall f,
      Solve_frame N
        (fun p => {| status := st;
                     x := x (ipopt_solve p);
                     obj_value := obj_value (ipopt_solve p) |})
        junk state coeffs = Ok f ->
      ok f = status_eqb st success.
Proof.
  unfold Solve, Solve_frame. split.
  - destruct (Solve_setup N junk state coeffs) as [p |]; cbn [bind];
      [| reflexivity].
    cbn [x]. destruct (extract N (x (ipopt_solve p))); reflexivity.
  - intros f. destruct (Solve_setup N junk state coeffs) as [p |];
      cbn [bind]; [| discriminate].
    cbn [x status]. destruct (extract N (x (ipopt_solve p))); cbn [bind];
      [| discriminate].
    intros [= <-]. reflexivity.
Qed.

(** A solve that ended in [local_infeasibility] and one that ended in
    [success], both holding the vector of zeros: the caller receives the
    same twenty zeros. *)
Example Solve_failed_looks_valid :
  Solve 10
    (fun _ => {| status := local_infeasibility; x := repeat 0%R 78;
                 obj_value := 0%R |})
    0%R [1; 2; 3; 4; 5; 6]%R [0; 0; 0; 0]%R
  = Ok (repeat 0%R 20)
  /\ Solve 10
       (fun _ => {| status := success; x := repeat 0%R 78; obj_value := 0%R |})
       0%R [1; 2; 3; 4; 5; 6]%R [0; 0; 0; 0]%R
     = Ok (repeat 0%R 20).
Proof.
  assert (H2 : 2 <= 10) by lia.
  assert (Hs : 8 * 10 < size_max) by reflexivity.
  destruct (Solve_setup_spec 10 ltac:(lia) Hs 0%R [1; 2; 3; 4; 5; 6]%R
              [0; 0; 0; 0]%R ltac:(simpl; lia)) as (p & E & _).
  unfold Solve, Solve_frame. rewrite E. cbn [bind x].
  rewrite (extract_spec 10 H2 Hs (repeat 0%R 78) eq_refl).
  split; reflexivity.
Qed.

(** ** C8: a polynomial with fewer than four coefficients *)

(** C8 (as stated, refuted).  [Solve] assembles a problem for a polynomial of
    three coefficients, and the first evaluation of that problem, on the
    initial guess, reads [coeffs[3]]. *)
Lemma short_polynomial_not_rejected :
  exists p,
    Solve_setup 10 0%R [1; 2; 3; 4; 5; 6]%R [0; 0; 0]%R = Ok p
    /\ nlp_fg_eval p (repeat 0%R 61) (nlp_xi p) = Fault v_coeffs 3.
Proof.
  assert (H2 : 2 <= 10) by lia.
  assert (Hs : 8 * 10 < size_max) by reflexivity.
  destruct (Solve_setup_spec 10 ltac:(lia) Hs 0%R [1; 2; 3; 4; 5; 6]%R
              [0; 0; 0]%R ltac:(simpl; lia))
    as (p & E & _ & Hfg & (Hxi & _) & _).
  exists p. split; [exact E |]. rewrite Hfg.
  apply (FG_eval_short_coeffs 10 [0; 0; 0]%R (nlp_xi p) H2 Hs);
    [rewrite Hxi; reflexivity | simpl; lia | reflexivity].
Qed.

(** C8 (amended).  Nothing checks the number of coefficients: [Solve]
    assembles the problem for every coefficient vector.  On vectors of the
    problem's sizes the evaluation runs to its end when there are at least
    four coefficients, and with fewer it reads the coefficient vector out of
    range, at a subscript between its length and 3. *)
Theorem coefficient_count_unchecked {num : Type} `{Numeric num}
    (N : Z) (junk : num) (state coeffs : list num) :
  2 <= N -> 8 * N < size_max ->
  (6 <= length state)%nat ->
  exists p,
    Solve_setup N junk state coeffs = Ok p
    /\ forall fg vars,
        Z.of_nat (length fg) = 1 + n_constraints N ->
        Z.of_nat (length vars) = n_vars N ->
        ((4 <= length coeffs)%nat ->
         exists fg', nlp_fg_eval p fg vars = Ok fg')
        /\ ((length coeffs < 4)%nat ->
            exists i,
              Z.of_nat (length coeffs) <= i <= 3
              /\ nlp_fg_eval p fg vars = Fault v_coeffs i).
Proof.
  intros HN Hsmall Hst. layout N.
  destruct (Solve_setup_spec N ltac:(lia) Hsmall junk state coeffs Hst)
    as (p & E & _ & Hfg & _).
  exists p. split; [exact E |].
  intros fg vars Hlfg Hlvars. rewrite Hfg. split; intros Hco.
  - destruct (FG_eval_spec N coeffs vars HN Hsmall ltac:(lia) fg Hco
                ltac:(lia)) as (fg' & E' & _).
    exists fg'. exact E'.
  - exists (Z.of_nat (length coeffs)). split; [lia |].
    apply FG_eval_short_coeffs; try assumption; lia.
Qed.

Lemma coefficient_count_unchecked_witness :
  exists p,
    Solve_setup 10 0%R [1; 2; 3; 4; 5; 6]%R [5; 6]%R = Ok p
    /\ forall fg vars,
        Z.of_nat (length fg) = 1 + n_constraints 10 ->
        Z.of_nat (length vars) = n_vars 10 ->
        ((4 <= length [5; 6]%R)%nat ->
         exists fg', nlp_fg_eval p fg vars = Ok fg')
        /\ ((length [5; 6]%R < 4)%nat ->
            exists i,
              Z.of_nat (length [5; 6]%R) <= i <= 3
              /\ nlp_fg_eval p fg vars = Fault v_coeffs i).
Proof.
  apply (coefficient_count_unchecked 10); [lia | reflexivity | simpl; lia].
Defined.

(** ** C9: horizons below 2 *)

(** C9 (as stated, refuted).  With [N = 1] and vectors of the sizes that
    go with it, the third loop is entered and reads [vars[7]], outside the
    six variables. *)
Lemma horizon_1_reads_outside :
  FG_eval 1 [0; 0; 0; 0]%R (repeat 0%R 7) (repeat 0%R 6) = Fault v_vars 7
  /\ in_range (repeat 0%R 6) 7 = false.
Proof.
  split; [apply FG_eval_horizon_1; reflexivity | reflexivity].
Qed.

(** C9 (amended).  The bound [N - 2] is computed in [size_t] and nothing
    guards it.  At [N = 2] it is 0: the third loop does nothing and the cost
    is made of the tracking and actuation terms alone.  Below 2 the
    subtraction wraps around, the loop (for [N = 0] already the second one)
    is entered, and the evaluation reads [vars] outside its range. *)
Theorem smoothness_bound_unguarded {num : Type} `{Numeric num}
    (N : Z) (coeffs fg vars : list num) :
  0 <= N <= 2 ->
  (4 <= length coeffs)%nat ->
  Z.of_nat (length fg) = 1 + n_constraints N ->
  Z.of_nat (length vars) = n_vars N ->
  (N = 2 ->
   N -' 2 = 0
   /\ exists fg',
       FG_eval N coeffs fg vars = Ok fg'
       /\ vget v_fg fg' 0
          = Ok (accumulate (lit 0)
                  (flat_map (tracking_terms N vars) (interval 0 N)
                   ++ flat_map (actuation_terms N vars) (interval 0 (N - 1)))))
  /\ (N < 2 ->
      size_max - 2 <= N -' 2
      /\ exists i,
          FG_eval N coeffs fg vars = Fault v_vars i
          /\ Z.of_nat (length vars) <= i).
Proof.
  intros HN Hco Hfg Hvars. split.
  - intros ->. split; [reflexivity |].
    assert (H2 : 2 <= 2) by lia.
    assert (Hs : 8 * 2 < size_max) by reflexivity.
    layout 2.
    destruct (FG_eval_spec 2 coeffs vars H2 Hs ltac:(lia) fg Hco ltac:(lia))
      as (fg' & E & _ & Hcost & _).
    exists fg'. split; [exact E |].
    rewrite Hcost. unfold spec_cost.
    rewrite (interval_empty 0 (2 - 2)) by lia.
    cbn [flat_map]. rewrite app_nil_r. reflexivity.
  - intros Hlt.
    assert (HN01 : N = 0 \/ N = 1) by lia.
    destruct HN01 as [-> | ->].
    + split; [rewrite sz_sub_wraps; zlia |].
      exists (size_max - 1). split.
      * apply FG_eval_horizon_0; assumption.
      * rewrite Hvars. change (n_vars 0) with (size_max - 2). lia.
    + split; [rewrite sz_sub_wraps; zlia |].
      exists 7. split.
      * apply FG_eval_horizon_1; assumption.
      * rewrite Hvars. change (n_vars 1) with 6. lia.
Qed.

Lemma smoothness_bound_unguarded_witness :
  (2 = 2 ->
   2 -' 2 = 0
   /\ exists fg',
       FG_eval 2 [0; 0; 0; 0]%R (repeat 0%R 13) (repeat 0%R 14) = Ok fg'
       /\ vget v_fg fg' 0
          = Ok (accumulate (lit 0)
                  (flat_map (tracking_terms 2 (repeat 0%R 14)) (interval 0 2)
                   ++ flat_map (actuation_terms 2 (repeat 0%R 14))
                        (interval 0 (2 - 1)))))
  /\ (2 < 2 ->
      size_max - 2 <= 2 -' 2
      /\ exists i,
          FG_eval 2 [0; 0; 0; 0]%R (repeat 0%R 13) (repeat 0%R 14)
          = Fault v_vars i
          /\ Z.of_nat (length (repeat 0%R 14)) <= i).
Proof.
  apply (smoothness_bound_unguarded 2);
    [lia | simpl; lia | reflexivity | reflexivity].
Defined.

(** * Further properties of the program *)

(** ** Two vectors with the same reads are the same vector *)

Lemma vget_Ok_nth_error {A : Type} id (v : list A) i a :
  vget id v i = Ok a -> nth_error v (Z.to_nat i) = Some a.
Proof.
  unfold vget. destruct (0 <=? i); [| discriminate].
  destruct (nth_error v (Z.to_nat i)); [| discriminate].
  intros [= ->]. reflexivity.
Qed.

Lemma list_eq_by_reads {A : Type} id1 id2 (l1 l2 : list A) n :
  Z.of_nat (length l1) = n ->
  Z.of_nat (length l2) = n ->
  (forall i, 0 <= i < n ->
             exists a, vget id1 l1 i = Ok a /\ vget id2 l2 i = Ok a) ->
  l1 = l2.
Proof.
  intros H1 H2 Hread. apply nth_error_ext. intros k.
  destruct (Nat.lt_ge_cases k (length l1)) as [Hlt | Hge].
  - destruct (Hread (Z.of_nat k) ltac:(lia)) as (a & Ha1 & Ha2).
    apply vget_Ok_nth_error in Ha1, Ha2. rewrite Nat2Z.id in Ha1, Ha2.
    congruence.
  - rewrite (proj2 (nth_error_None l1 k)) by lia.
    rewrite (proj2 (nth_error_None l2 k)) by lia. reflexivity.
Qed.

(** Every constraint subscript lies in one of the six blocks. *)
Lemma constraint_block N j :
  1 <= N -> 8 * N < size_max ->
  0 <= j < 6 * N ->
  exists k t, 0 <= t < N /\ j = start_of N k + t.
Proof.
  intros HN Hsmall Hj. layout N.
  destruct (Z_lt_dec j N); [exists cx, j; cbn [start_of]; lia |].
  destruct (Z_lt_dec j (2 * N));
    [exists cy, (j - N); cbn [start_of]; lia |].
  destruct (Z_lt_dec j (3 * N));
    [exists cpsi, (j - 2 * N); cbn [start_of]; lia |].
  destruct (Z_lt_dec j (4 * N));
    [exists cv, (j - 3 * N); cbn [start_of]; lia |].
  destruct (Z_lt_dec j (5 * N));
    [exists ccte, (j - 4 * N); cbn [start_of]; lia |].
  exists cepsi, (j - 5 * N). cbn [start_of]. lia.
Qed.

(** A constraint subscript is one of the six offsets or none of them. *)
Lemma start_or_not N j :
  (exists k, j = start_of N k) \/ (forall k, j <> start_of N k).
Proof.
  destruct (Z.eq_dec j (start_of N cx)); [left; exists cx; assumption |].
  destruct (Z.eq_dec j (start_of N cy)); [left; exists cy; assumption |].
  destruct (Z.eq_dec j (start_of N cpsi)); [left; exists cpsi; assumption |].
  destruct (Z.eq_dec j (start_of N cv)); [left; exists cv; assumption |].
  destruct (Z.eq_dec j (start_of N ccte)); [left; exists ccte; assumption |].
  destruct (Z.eq_dec j (start_of N cepsi));
    [left; exists cepsi; assumption |].
  right. intros k. destruct k; assumption.
Qed.

Section AssembledFacts.
Context {num : Type} `{Numeric num}.
Variable N : Z.
Hypothesis N_ge : 1 <= N.
Hypothesis N_small : 8 * N < size_max.

(** The description [assembled] fixes the problem completely. *)
Lemma assembled_unique state coeffs (p1 p2 : nlp num) :
  assembled N state coeffs p1 -> assembled N state coeffs p2 -> p1 = p2.
Proof.
  intros (Ho1 & Hf1 & (Hxi1 & Hz1) & (Hl1 & Hu1 & Hs1 & Hd1 & Ha1)
          & (Hgl1 & Hgu1 & Hp1 & H01))
         (Ho2 & Hf2 & (Hxi2 & Hz2) & (Hl2 & Hu2 & Hs2 & Hd2 & Ha2)
          & (Hgl2 & Hgu2 & Hp2 & H02)).
  layout N.
  assert (Exi : nlp_xi p1 = nlp_xi p2).
  { apply (list_eq_by_reads v_vars v_vars _ _ (n_vars N)); auto.
    intros i Hi. exists (lit 0). auto. }
  assert (Exl : nlp_xl p1 = nlp_xl p2 /\ nlp_xu p1 = nlp_xu p2).
  { split.
    - apply (list_eq_by_reads v_vars_lowerbound v_vars_lowerbound _ _
               (n_vars N)); auto.
      intros i Hi.
      destruct (Z_lt_dec i (delta_start N));
        [| destruct (Z_lt_dec i (a_start N))].
      + eexists. split; [apply Hs1 | apply Hs2]; lia.
      + eexists. split; [apply Hd1 | apply Hd2]; lia.
      + eexists. split; [apply Ha1 | apply Ha2]; lia.
    - apply (list_eq_by_reads v_vars_upperbound v_vars_upperbound _ _
               (n_vars N)); auto.
      intros i Hi.
      destruct (Z_lt_dec i (delta_start N));
        [| destruct (Z_lt_dec i (a_start N))].
      + eexists. split; [apply Hs1 | apply Hs2]; lia.
      + eexists. split; [apply Hd1 | apply Hd2]; lia.
      + eexists. split; [apply Ha1 | apply Ha2]; lia. }
  assert (Eg : nlp_gl p1 = nlp_gl p2 /\ nlp_gu p1 = nlp_gu p2).
  { split.
    - apply (list_eq_by_reads v_constraints_lowerbound
               v_constraints_lowerbound _ _ (n_constraints N)); auto.
      intros i Hi. destruct (start_or_not N i) as [[k ->] | Hne].
      + eexists. split; [apply Hp1 | apply Hp2].
      + eexists. split; [apply H01 | apply H02]; auto.
    - apply (list_eq_by_reads v_constraints_upperbound
               v_constraints_upperbound _ _ (n_constraints N)); auto.
      intros i Hi. destruct (start_or_not N i) as [[k ->] | Hne].
      + eexists. split; [apply Hp1 | apply Hp2].
      + eexists. split; [apply H01 | apply H02]; auto. }
  destruct Exl as [Exl Exu]. destruct Eg as [Egl Egu].
  destruct p1, p2. cbn in *. congruence.
Qed.

(** In an assembled problem the two bounds of every constraint coincide. *)
Lemma assembled_equalities state coeffs (p : nlp num) :
  assembled N state coeffs p -> nlp_gl p = nlp_gu p.
Proof.
  intros (_ & _ & _ & _ & (Hgl & Hgu & Hp & H0)).
  apply (list_eq_by_reads v_constraints_lowerbound v_constraints_upperbound
           _ _ (n_constraints N)); auto.
  intros i Hi. destruct (start_or_not N i) as [[k ->] | Hne].
  - eexists. apply Hp.
  - eexists. apply H0; auto.
Qed.

(** The description [evaluated], with the length, fixes [fg] completely. *)
Lemma evaluated_unique coeffs vars (f1 f2 : list num) :
  Z.of_nat (length f1) = 1 + 6 * N ->
  Z.of_nat (length f2) = 1 + 6 * N ->
  evaluated N coeffs vars f1 -> evaluated N coeffs vars f2 -> f1 = f2.
Proof.
  intros Hl1 Hl2 (Hc1 & Hi1 & Hd1) (Hc2 & Hi2 & Hd2).
  apply (list_eq_by_reads v_fg v_fg _ _ (1 + 6 * N)); auto.
  intros i Hi.
  destruct (Z.eq_dec i 0) as [-> | Hnz]; [eexists; split; eassumption |].
  destruct (constraint_block N (i - 1) N_ge N_small ltac:(lia))
    as (k & t & Ht & Hj).
  replace i with (1 + start_of N k + t) by lia.
  destruct (Z.eq_dec t 0) as [-> | Htz].
  - rewrite Z.add_0_r. eexists. split; [apply Hi1 | apply Hi2].
  - eexists. split; [apply Hd1 | apply Hd2]; lia.
Qed.
End AssembledFacts.

Lemma vget_repeat {A : Type} id (a : A) n i :
  0 <= i < Z.of_nat n -> vget id (repeat a n) i = Ok a.
Proof.
  intros Hi. rewrite (vget_ok id _ i a) by (rewrite repeat_length; lia).
  f_equal. apply nth_repeat_lt. lia.
Qed.

(** ** X1: the solver starts from zero *)

(** X1.  Whatever the state, the polynomial and the content of fresh
    storage, the initial guess [Solve] hands to the solver is the vector of
    [n_vars] zeros: nothing of a previous solve is carried over. *)
Theorem cold_start {num : Type} `{Numeric num}
    (N : Z) (junk : num) (state coeffs : list num) :
  1 <= N -> 8 * N < size_max ->
  (6 <= length state)%nat ->
  exists p,
    Solve_setup N junk state coeffs = Ok p
    /\ nlp_xi p = repeat (lit 0) (Z.to_nat (n_vars N)).
Proof.
  intros HN Hsmall Hst. layout N.
  destruct (Solve_setup_spec N HN Hsmall junk state coeffs Hst)
    as (p & E & _ & _ & (Hxi & Hz) & _).
  exists p. split; [exact E |].
  apply (list_eq_by_reads v_vars v_vars _ _ (n_vars N)).
  - exact Hxi.
  - rewrite repeat_length. lia.
  - intros i Hi. exists (lit 0). split; [apply Hz; exact Hi |].
    apply vget_repeat. lia.
Qed.

Lemma cold_start_witness :
  exists p,
    Solve_setup 10 5%R [1; 2; 3; 4; 5; 6]%R [0; 0; 0; 0]%R = Ok p
    /\ nlp_xi p = repeat (lit 0) (Z.to_nat (n_vars 10)).
Proof.
  apply (cold_start 10); [lia | reflexivity | simpl; lia].
Defined.

(** ** X2: fresh storage never reaches the solver *)

(** X2.  [Solve] sizes five vectors without initialising them and writes
    every entry of each before the solver is called: the assembled problem,
    and with it what [Solve] returns, is the same for any two contents of
    the fresh storage. *)
Theorem fresh_storage_overwritten {num : Type} `{Numeric num}
    (N : Z) (ipopt_solve : nlp num -> solve_result num) (junk1 junk2 : num)
    (state coeffs : list num) :
  1 <= N -> 8 * N < size_max ->
  (6 <= length state)%nat ->
  Solve_setup N junk1 state coeffs = Solve_setup N junk2 state coeffs
  /\ Solve N ipopt_solve junk1 state coeffs
     = Solve N ipopt_solve junk2 state coeffs.
Proof.
  intros HN Hsmall Hst.
  assert (E : Solve_setup N junk1 state coeffs
              = Solve_setup N junk2 state coeffs).
  { destruct (Solve_setup_spec N HN Hsmall junk1 state coeffs Hst)
      as (p1 & E1 & A1).
    destruct (Solve_setup_spec N HN Hsmall junk2 state coeffs Hst)
      as (p2 & E2 & A2).
    rewrite E1, E2. f_equal.
    apply (assembled_unique N HN Hsmall state coeffs); assumption. }
  split; [exact E |].
  unfold Solve, Solve_frame. rewrite E. reflexivity.
Qed.

Lemma fresh_storage_overwritten_witness :
  Solve_setup 10 0%R [1; 2; 3; 4; 5; 6]%R [0; 0; 0; 0]%R
  = Solve_setup 10 7%R [1; 2; 3; 4; 5; 6]%R [0; 0; 0; 0]%R
  /\ Solve 10
       (fun _ => {| status := success; x := repeat 0%R 78; obj_value := 0%R |})
       0%R [1; 2; 3; 4; 5; 6]%R [0; 0; 0; 0]%R
     = Solve 10
         (fun _ => {| status := success; x := repeat 0%R 78;
                      obj_value := 0%R |})
         7%R [1; 2; 3; 4; 5; 6]%R [0; 0; 0; 0]%R.
Proof.
  apply (fresh_storage_overwritten 10); [lia | reflexivity | simpl; lia].
Defined.

(** ** X3: every constraint is an equality *)

(** X3.  In the problem [Solve] assembles the vector of lower bounds of the
    constraints and the vector of upper bounds are the same vector: each of
    the [n_constraints] constraints is an equality. *)
Theorem constraints_are_equalities {num : Type} `{Numeric num}
    (N : Z) (junk : num) (state coeffs : list num) :
  1 <= N -> 8 * N < size_max ->
  (6 <= length state)%nat ->
  exists p,
    Solve_setup N junk state coeffs = Ok p
    /\ nlp_gl p = nlp_gu p
    /\ Z.of_nat (length (nlp_gl p)) = n_constraints N.
Proof.
  intros HN Hsmall Hst.
  destruct (Solve_setup_spec N HN Hsmall junk state coeffs Hst)
    as (p & E & A).
  exists p. split; [exact E |]. split.
  - apply (assembled_equalities N state coeffs). exact A.
  - destruct A as (_ & _ & _ & _ & (Hgl & _)). exact Hgl.
Qed.

Lemma constraints_are_equalities_witness :
  exists p,
    Solve_setup 10 0%R [1; 2; 3; 4; 5; 6]%R [0; 0; 0; 0]%R = Ok p
    /\ nlp_gl p = nlp_gu p
    /\ Z.of_nat (length (nlp_gl p)) = n_constraints 10.
Proof.
  apply (constraints_are_equalities 10); [lia | reflexivity | simpl; lia].
Defined.

(** ** X4: an evaluation overwrites all of fg *)

(** X4.  An evaluation writes every entry of [fg], the cost and all
    [n_constraints] constraints: for given coefficients and variables there
    is one vector that the evaluation leaves in [fg] whatever [fg] held
    before.  In particular evaluating again on the result changes nothing. *)
Theorem evaluation_overwrites_fg {num : Type} `{Numeric num}
    (N : Z) (coeffs vars : list num) :
  2 <= N -> 8 * N < size_max ->
  (4 <= length coeffs)%nat ->
  Z.of_nat (length vars) = n_vars N ->
  exists fg',
    Z.of_nat (length fg') = 1 + n_constraints N
    /\ forall fg,
        Z.of_nat (length fg) = 1 + n_constraints N ->
        FG_eval N coeffs fg vars = Ok fg'.
Proof.
  intros HN Hsmall Hco Hvars. layout N.
  destruct (FG_eval_spec N coeffs vars HN Hsmall ltac:(lia)
              (repeat (lit 0) (Z.to_nat (1 + 6 * N))) Hco)
    as (fg' & E & Hl & Hev).
  { rewrite repeat_length. lia. }
  rewrite repeat_length in Hl.
  exists fg'. split; [lia |].
  intros fg Hfg.
  destruct (FG_eval_spec N coeffs vars HN Hsmall ltac:(lia) fg Hco ltac:(lia))
    as (fg'' & E'' & Hl'' & Hev'').
  rewrite E''. f_equal.
  apply (evaluated_unique N ltac:(lia) Hsmall coeffs vars); auto; lia.
Qed.

Lemma evaluation_overwrites_fg_witness :
  exists fg',
    Z.of_nat (length fg') = 1 + n_constraints 10
    /\ forall fg,
        Z.of_nat (length fg) = 1 + n_constraints 10 ->
        FG_eval 10 [1; 2; 3; 4]%R fg (repeat 0%R 78) = Ok fg'.
Proof.
  apply (evaluation_overwrites_fg 10);
    [lia | reflexivity | simpl; lia | reflexivity].
Defined.

(** ** Over the real numbers *)

Lemma lit_R_int (z : Z) : @lit R _ (z # 1) = IZR z.
Proof. cbn. unfold Q2R. simpl. field. Qed.

Lemma in_interval lo hi t : In t (interval lo hi) <-> lo <= t < hi.
Proof.
  unfold interval. rewrite in_map_iff. split.
  - intros (k & <- & Hk). apply in_seq in Hk. lia.
  - intros Ht. exists (Z.to_nat (t - lo)). split; [lia |].
    apply in_seq. lia.
Qed.

Section RealSums.
Local Open Scope R_scope.

Lemma accumulate_sum (c : R) (l : list R) :
  accumulate c l = c + fold_right Rplus 0 l.
Proof.
  unfold accumulate. revert c. induction l as [| a l IH]; intros c; simpl.
  - ring.
  - rewrite IH. cbn [nadd Numeric_R]. ring.
Qed.

Lemma sum_nonneg (l : list R) :
  Forall (fun a => 0 <= a) l -> 0 <= fold_right Rplus 0 l.
Proof.
  induction 1 as [| a l Ha _ IH]; simpl; [apply Rle_refl |].
  apply Rplus_le_le_0_compat; assumption.
Qed.

Lemma sum_zero (l : list R) :
  Forall (fun a => 0 <= a) l ->
  fold_right Rplus 0 l = 0 <-> Forall (fun a => a = 0) l.
Proof.
  induction 1 as [| a l Ha Hl IH]; simpl.
  - split; [constructor | reflexivity].
  - pose proof (sum_nonneg l Hl) as Hs. split.
    + intros E. constructor; [lra | apply IH; lra].
    + intros Hz. inversion Hz as [| ? ? Ea Hz']; subst.
      rewrite (proj2 IH Hz'). ring.
Qed.

(** A term [w * pow(e, 2)] with a positive weight. *)
Lemma weighted_square (w : Z) (e : R) :
  (0 < w)%Z ->
  0 <= nmul (lit (w # 1)) (npow e 2)
  /\ (nmul (lit (w # 1)) (npow e 2) = 0 <-> e = 0).
Proof.
  intros Hw. rewrite lit_R_int. cbn [nmul npow Numeric_R].
  assert (HW : 0 < IZR w) by (apply (IZR_lt 0); exact Hw).
  replace (powerRZ e 2) with (e * e) by (simpl; ring).
  pose proof (Rle_0_sqr e) as Hsq. unfold Rsqr in Hsq.
  split; [apply Rmult_le_pos; [apply Rlt_le; exact HW | exact Hsq] |].
  split.
  - intros E. apply Rmult_integral in E. destruct E as [E | E]; [lra |].
    apply Rmult_integral in E. destruct E; assumption.
  - intros ->. ring.
Qed.
End RealSums.

Section RealCost.
Local Open Scope R_scope.
Variable N : Z.
Variable vars : list R.

Lemma tracking_terms_sign t :
  Forall (fun a => 0 <= a) (tracking_terms N vars t)
  /\ (Forall (fun a => a = 0) (tracking_terms N vars t)
      <-> elt vars (cte_start N + t) = 0
          /\ elt vars (epsi_start N + t) = 0
          /\ elt vars (v_start N + t) = 130).
Proof.
  unfold tracking_terms, ref_v.
  destruct (weighted_square 1500 (nsub (elt vars (cte_start N + t)) (lit 0))
              ltac:(lia)) as [P1 Z1].
  destruct (weighted_square 2000 (nsub (elt vars (epsi_start N + t)) (lit 0))
              ltac:(lia)) as [P2 Z2].
  destruct (weighted_square 1 (nsub (elt vars (v_start N + t)) (lit 130))
              ltac:(lia)) as [P3 Z3].
  assert (E0 : @lit R _ 0 = 0) by apply lit_R_int.
  assert (E130 : @lit R _ 130 = 130) by apply lit_R_int.
  cbn [nsub Numeric_R] in Z1, Z2, Z3.
  split; [auto using Forall_cons, Forall_nil |]. split.
  - intros Hz. inversion Hz as [| ? ? E1 Hz1]; subst.
    inversion Hz1 as [| ? ? E2 Hz2]; subst.
    inversion Hz2 as [| ? ? E3 _]; subst.
    apply Z1 in E1. apply Z2 in E2. apply Z3 in E3. lra.
  - intros (E1 & E2 & E3).
    apply Forall_cons; [apply Z1; lra |].
    apply Forall_cons; [apply Z2; lra |].
    apply Forall_cons; [apply Z3; lra | apply Forall_nil].
Qed.

Lemma actuation_terms_sign t :
  Forall (fun a => 0 <= a) (actuation_terms N vars t)
  /\ (Forall (fun a => a = 0) (actuation_terms N vars t)
      <-> elt vars (delta_start N + t) = 0
          /\ elt vars (a_start N + t) = 0).
Proof.
  unfold actuation_terms.
  destruct (weighted_square 10 (elt vars (delta_start N + t)) ltac:(lia))
    as [P1 Z1].
  destruct (weighted_square 10 (elt vars (a_start N + t)) ltac:(lia))
    as [P2 Z2].
  split; [auto using Forall_cons, Forall_nil |]. split.
  - intros Hz. inversion Hz as [| ? ? E1 Hz1]; subst.
    inversion Hz1 as [| ? ? E2 _]; subst.
    split; [apply Z1 | apply Z2]; assumption.
  - intros (E1 & E2).
    apply Forall_cons; [apply Z1; exact E1 |].
    apply Forall_cons; [apply Z2; exact E2 | apply Forall_nil].
Qed.

Lemma smoothness_terms_sign t :
  Forall (fun a => 0 <= a) (smoothness_terms N vars t)
  /\ (elt vars (delta_start N + t + 1) = elt vars (delta_start N + t) ->
      elt vars (a_start N + t + 1) = elt vars (a_start N + t) ->
      Forall (fun a => a = 0) (smoothness_terms N vars t)).
Proof.
  unfold smoothness_terms.
  destruct (weighted_square 1000
              (nsub (elt vars (delta_start N + t + 1))
                 (elt vars (delta_start N + t))) ltac:(lia)) as [P1 Z1].
  destruct (weighted_square 10
              (nsub (elt vars (a_start N + t + 1))
                 (elt vars (a_start N + t))) ltac:(lia)) as [P2 Z2].
  cbn [nsub Numeric_R] in Z1, Z2.
  split; [auto using Forall_cons, Forall_nil |].
  intros E1 E2.
  apply Forall_cons; [apply Z1; lra |].
  apply Forall_cons; [apply Z2; lra | apply Forall_nil].
Qed.

(** The cost of the spec is a sum of non-negative terms; it vanishes exactly
    on the reference. *)
Lemma spec_cost_sign :
  0 <= spec_cost N vars
  /\ (spec_cost N vars = 0
      <-> (forall t, (0 <= t < N)%Z ->
             elt vars (cte_start N + t) = 0
             /\ elt vars (epsi_start N + t) = 0
             /\ elt vars (v_start N + t) = 130)
          /\ (forall t, (0 <= t < N - 1)%Z ->
                elt vars (delta_start N + t) = 0
                /\ elt vars (a_start N + t) = 0)).
Proof.
  unfold spec_cost. rewrite accumulate_sum, lit_R_int, Rplus_0_l.
  set (T := flat_map (tracking_terms N vars) (interval 0 N)).
  set (A := flat_map (actuation_terms N vars) (interval 0 (N - 1))).
  set (S := flat_map (smoothness_terms N vars) (interval 0 (N - 2))).
  assert (HT : Forall (fun a => 0 <= a) T).
  { apply Forall_flat_map, Forall_forall. intros t _.
    apply tracking_terms_sign. }
  assert (HA : Forall (fun a => 0 <= a) A).
  { apply Forall_flat_map, Forall_forall. intros t _.
    apply actuation_terms_sign. }
  assert (HS : Forall (fun a => 0 <= a) S).
  { apply Forall_flat_map, Forall_forall. intros t _.
    apply smoothness_terms_sign. }
  assert (Hall : Forall (fun a => 0 <= a) (T ++ A ++ S))
    by (repeat (apply Forall_app; split); assumption).
  split; [apply sum_nonneg; exact Hall |].
  rewrite (sum_zero _ Hall), !Forall_app. subst T A S.
  rewrite !Forall_flat_map, !Forall_forall. split.
  - intros (Ht & Ha & _). split.
    + intros t Hr. apply tracking_terms_sign, Ht, in_interval. exact Hr.
    + intros t Hr. apply actuation_terms_sign, Ha, in_interval. exact Hr.
  - intros (Ht & Ha). split; [| split].
    + intros t Hr. apply tracking_terms_sign, Ht, in_interval. exact Hr.
    + intros t Hr. apply actuation_terms_sign, Ha, in_interval. exact Hr.
    + intros t Hr. apply in_interval in Hr. apply smoothness_terms_sign.
      * rewrite <- Z.add_assoc.
        rewrite (proj1 (Ha (t + 1)%Z ltac:(lia))).
        rewrite (proj1 (Ha t ltac:(lia))). reflexivity.
      * rewrite <- Z.add_assoc.
        rewrite (proj2 (Ha (t + 1)%Z ltac:(lia))).
        rewrite (proj2 (Ha t ltac:(lia))). reflexivity.
Qed.
End RealCost.

(** ** X5: the cost is never negative *)

(** X5.  Over the real numbers the cost an evaluation leaves in [fg[0]] is
    never negative, and it is 0 exactly when every cross-track error and
    every heading error is 0, every speed is the reference speed 130, and
    every steering angle and every acceleration is 0. *)
Theorem cost_sign (N : Z) (coeffs fg vars : list R) :
  2 <= N -> 8 * N < size_max ->
  (4 <= length coeffs)%nat ->
  Z.of_nat (length fg) = 1 + n_constraints N ->
  Z.of_nat (length vars) = n_vars N ->
  exists fg' c,
    FG_eval N coeffs fg vars = Ok fg'
    /\ vget v_fg fg' 0 = Ok c
    /\ (0 <= c)%R
    /\ (c = 0%R
        <-> (forall t, 0 <= t < N ->
               elt vars (cte_start N + t) = 0%R
               /\ elt vars (epsi_start N + t) = 0%R
               /\ elt vars (v_start N + t) = 130%R)
            /\ (forall t, 0 <= t < N - 1 ->
                  elt vars (delta_start N + t) = 0%R
                  /\ elt vars (a_start N + t) = 0%R)).
Proof.
  intros HN Hsmall Hco Hfg Hvars. layout N.
  destruct (FG_eval_spec N coeffs vars HN Hsmall ltac:(lia) fg Hco ltac:(lia))
    as (fg' & E & _ & Hcost & _).
  exists fg', (spec_cost N vars).
  split; [exact E |]. split; [exact Hcost |]. apply spec_cost_sign.
Qed.

Lemma cost_sign_witness :
  exists fg' c,
    FG_eval 10 [1; 0; 0; 0]%R (repeat 7%R 61) (repeat 0%R 78) = Ok fg'
    /\ vget v_fg fg' 0 = Ok c
    /\ (0 <= c)%R
    /\ (c = 0%R
        <-> (forall t, 0 <= t < 10 ->
               elt (repeat 0%R 78) (cte_start 10 + t) = 0%R
               /\ elt (repeat 0%R 78) (epsi_start 10 + t) = 0%R
               /\ elt (repeat 0%R 78) (v_start 10 + t) = 130%R)
            /\ (forall t, 0 <= t < 10 - 1 ->
                  elt (repeat 0%R 78) (delta_start 10 + t) = 0%R
                  /\ elt (repeat 0%R 78) (a_start 10 + t) = 0%R)).
Proof.
  apply (cost_sign 10);
    [lia | reflexivity | simpl; lia | reflexivity | reflexivity].
Defined.

(** ** X6: the initial guess respects the bounds of the variables *)

Lemma float_max_pos : (0 < @float_max R _)%R.
Proof. cbn. apply (IZR_lt 0). reflexivity. Qed.

Lemma max_radians_pos : (0 < @max_radians R _)%R.
Proof.
  unfold max_radians, max_degrees. rewrite !lit_R_int.
  cbn [nmul ndiv M_PI Numeric_R]. pose proof PI_RGT_0. lra.
Qed.

(** X6.  Over the real numbers every variable of the assembled problem has
    its lower bound strictly below and its upper bound strictly above the
    value 0 the initial guess gives it: the solver starts strictly inside
    the box. *)
Theorem start_inside_bounds (N : Z) (junk : R) (state coeffs : list R) :
  1 <= N -> 8 * N < size_max ->
  (6 <= length state)%nat ->
  exists p,
    Solve_setup N junk state coeffs = Ok p
    /\ forall i, 0 <= i < n_vars N ->
         exists l g u,
           vget v_vars_lowerbound (nlp_xl p) i = Ok l
           /\ vget v_vars (nlp_xi p) i = Ok g
           /\ vget v_vars_upperbound (nlp_xu p) i = Ok u
           /\ (l < g < u)%R.
Proof.
  intros HN Hsmall Hst. layout N.
  destruct (Solve_setup_spec N HN Hsmall junk state coeffs Hst)
    as (p & E & _ & _ & (_ & Hz) & (_ & _ & Hs & Hd & Ha) & _).
  exists p. split; [exact E |].
  intros i Hi. pose proof float_max_pos. pose proof max_radians_pos.
  assert (E0 : @lit R _ 0 = 0%R) by apply lit_R_int.
  assert (E1 : @lit R _ 1 = 1%R) by apply lit_R_int.
  destruct (Z_lt_dec i (delta_start N)); [| destruct (Z_lt_dec i (a_start N))].
  - destruct (Hs i ltac:(lia)) as [Hl Hu].
    eexists _, _, _.
    split; [exact Hl |]. split; [apply Hz; lia |]. split; [exact Hu |].
    rewrite E0. cbn [nneg Numeric_R]. lra.
  - destruct (Hd i ltac:(lia)) as [Hl Hu].
    eexists _, _, _.
    split; [exact Hl |]. split; [apply Hz; lia |]. split; [exact Hu |].
    rewrite E0. cbn [nneg Numeric_R]. lra.
  - destruct (Ha i ltac:(lia)) as [Hl Hu].
    eexists _, _, _.
    split; [exact Hl |]. split; [apply Hz; lia |]. split; [exact Hu |].
    rewrite E0, E1. cbn [nneg Numeric_R]. lra.
Qed.

Lemma start_inside_bounds_witness :
  exists p,
    Solve_setup 10 0%R [1; 2; 3; 4; 5; 6]%R [0; 0; 0; 0]%R = Ok p
    /\ forall i, 0 <= i < n_vars 10 ->
         exists l g u,
           vget v_vars_lowerbound (nlp_xl p) i = Ok l
           /\ vget v_vars (nlp_xi p) i = Ok g
           /\ vget v_vars_upperbound (nlp_xu p) i = Ok u
           /\ (l < g < u)%R.
Proof.
  apply (start_inside_bounds 10); [lia | reflexivity | simpl; lia].
Defined.

(** ** X7: the feasible points are the trajectories of the model *)

(** X7.  Over the real numbers, for the problem [Solve] assembles: a vector
    of variables satisfies every constraint bound if and only if its step 0
    is the measured state and every later step follows from the one before
    by the bicycle model.  The problem has no other feasible point. *)
Theorem feasible_iff_trajectory (N : Z) (junk : R) (state coeffs : list R) :
  2 <= N -> 8 * N < size_max ->
  (6 <= length state)%nat ->
  (4 <= length coeffs)%nat ->
  exists p,
    Solve_setup N junk state coeffs = Ok p
    /\ forall fg vars fg',
        Z.of_nat (length fg) = 1 + n_constraints N ->
        Z.of_nat (length vars) = n_vars N ->
        nlp_fg_eval p fg vars = Ok fg' ->
        (feasible Rle (nlp_gl p) (nlp_gu p) fg'
         <-> (forall k, elt vars (start_of N k) = elt state (state_index k))
             /\ (forall k t, 1 <= t < N ->
                   elt vars (start_of N k + t)
                   = bicycle_model coeffs
                       (elt vars (x_start + (t - 1)))
                       (elt vars (y_start N + (t - 1)))
                       (elt vars (psi_start N + (t - 1)))
                       (elt vars (v_start N + (t - 1)))
                       (elt vars (cte_start N + (t - 1)))
                       (elt vars (epsi_start N + (t - 1)))
                       (elt vars (delta_start N + (t - 1)))
                       (elt vars (a_start N + (t - 1)))
                       k)).
Proof.
  intros HN Hsmall Hst Hco. layout N.
  destruct (Solve_setup_spec N ltac:(lia) Hsmall junk state coeffs Hst)
    as (p & E & _ & Hfg & _ & _ & (Hgl & Hgu & Hpin & Hzero)).
  exists p. split; [exact E |].
  intros fg vars fg' Hlfg Hlvars Heval. rewrite Hfg in Heval.
  destruct (FG_eval_spec N coeffs vars HN Hsmall ltac:(lia) fg Hco ltac:(lia))
    as (fg'' & E'' & _ & _ & Hid & Hdyn).
  assert (fg'' = fg') by congruence. subst fg''.
  assert (E0 : @lit R _ 0 = 0%R) by apply lit_R_int.
  assert (Hoff : forall k t, 1 <= t < N ->
                   0 <= start_of N k + t < n_constraints N
                   /\ forall k', start_of N k + t <> start_of N k').
  { intros k t Ht. split; [destruct k; cbn [start_of]; lia |].
    intros k'. destruct k, k'; cbn [start_of]; lia. }
  split.
  - intros Hfeas. split.
    + intros k. destruct (Hpin k) as [Hlo Hup].
      destruct (Hfeas (start_of N k) _ _ _ (Hid k) Hlo Hup).
      apply Rle_antisym; assumption.
    + intros k t Ht. destruct (Hoff k t Ht) as [Hr Hne].
      destruct (Hzero _ Hr Hne) as [Hlo Hup].
      pose proof (Hdyn k t Ht) as Hg. rewrite <- Z.add_assoc in Hg.
      destruct (Hfeas _ _ _ _ Hg Hlo Hup) as [H1 H2].
      rewrite model_rhs_bicycle in H1, H2. rewrite E0 in H1, H2.
      cbn [nsub Numeric_R] in H1, H2. lra.
  - intros [Hstart Hmodel] i g l u Hg Hl Hu.
    pose proof (vget_Ok_range _ _ _ _ Hl) as Hr.
    destruct (constraint_block N i ltac:(lia) Hsmall ltac:(lia))
      as (k & t & Ht & ->).
    destruct (Z.eq_dec t 0) as [-> | Htz].
    + rewrite Z.add_0_r in *. destruct (Hpin k) as [Hlo Hup].
      rewrite (Hid k) in Hg. rewrite <- (Hstart k) in Hlo, Hup.
      assert (g = elt vars (start_of N k)) by congruence.
      assert (l = elt vars (start_of N k)) by congruence.
      assert (u = elt vars (start_of N k)) by congruence.
      subst. split; apply Rle_refl.
    + destruct (Hoff k t ltac:(lia)) as [Hr' Hne].
      destruct (Hzero _ Hr' Hne) as [Hlo Hup].
      rewrite Z.add_assoc, (Hdyn k t ltac:(lia)) in Hg.
      rewrite model_rhs_bicycle, <- (Hmodel k t ltac:(lia)) in Hg.
      assert (l = 0%R) by congruence. assert (u = 0%R) by congruence.
      injection Hg as <-. subst. cbn [nsub Numeric_R]. lra.
Qed.

Lemma feasible_iff_trajectory_witness :
  exists p,
    Solve_setup 10 0%R [1; 2; 3; 4; 5; 6]%R [0; 0; 0; 0]%R = Ok p
    /\ forall fg vars fg',
        Z.of_nat (length fg) = 1 + n_constraints 10 ->
        Z.of_nat (length vars) = n_vars 10 ->
        nlp_fg_eval p fg vars = Ok fg' ->
        (feasible Rle (nlp_gl p) (nlp_gu p) fg'
         <-> (forall k,
                elt vars (start_of 10 k)
                = elt [1; 2; 3; 4; 5; 6]%R (state_index k))
             /\ (forall k t, 1 <= t < 10 ->
                   elt vars (start_of 10 k + t)
                   = bicycle_model [0; 0; 0; 0]%R
                       (elt vars (x_start + (t - 1)))
                       (elt vars (y_start 10 + (t - 1)))
                       (elt vars (psi_start 10 + (t - 1)))
                       (elt vars (v_start 10 + (t - 1)))
                       (elt vars (cte_start 10 + (t - 1)))
                       (elt vars (epsi_start 10 + (t - 1)))
                       (elt vars (delta_start 10 + (t - 1)))
                       (elt vars (a_start 10 + (t - 1)))
                       k)).
Proof.
  apply (feasible_iff_trajectory 10);
    [lia | reflexivity | simpl; lia | simpl; lia].
Defined.

(** ** What a completed evaluation implies *)

Lemma vset_Ok_inv {A : Type} id (v v' : list A) i a :
  vset id v i a = Ok v' ->
  0 <= i < Z.of_nat (length v) /\ length v' = length v.
Proof.
  unfold vset, in_range.
  destruct (Z.leb_spec 0 i); destruct (Z.ltb_spec i (Z.of_nat (length v)));
    cbn [andb]; try discriminate.
  intros [= <-]. split; [lia | apply length_upd].
Qed.

Lemma bind_Ok_inv {A B : Type} (r : result A) (k : A -> result B) (b : B) :
  bind r k = Ok b -> exists a, r = Ok a /\ k a = Ok b.
Proof.
  destruct r as [a | v i]; simpl; intros E.
  - exists a. split; [reflexivity | exact E].
  - discriminate E.
Qed.

(** Takes a sequence of steps that ended well apart, step by step. *)
Ltac bind_inv H :=
  repeat match type of H with
    | bind _ _ = Ok _ =>
        let a := fresh "r" in
        let E := fresh "E" in
        apply bind_Ok_inv in H; destruct H as (a & E & H)
    end.

Section LoopInversion.
Context {S : Type}.
Variable P : S -> Prop.
Variable body : Z -> S -> result S.
Hypothesis body_keeps : forall k s s', P s -> body k s = Ok s' -> P s'.

Lemma iterate_Ok_inv fuel :
  forall t s s',
    P s -> iterate fuel t body s = Ok s' ->
    P s' /\ forall k, t <= k < t + Z.of_nat fuel ->
                      exists s1 s2, P s1 /\ body k s1 = Ok s2.
Proof.
  induction fuel as [| n IH]; intros t s s' Hs E; simpl in E.
  - injection E as <-. split; [exact Hs | intros; lia].
  - destruct (body t s) as [s1 |] eqn:E1; cbn [bind] in E; [| discriminate].
    destruct (IH (t + 1) s1 s' (body_keeps _ _ _ Hs E1) E) as [Hs' Hk].
    split; [exact Hs' |].
    intros k Hr. destruct (Z.eq_dec k t) as [-> | Hne].
    + exists s, s1. split; assumption.
    + apply Hk. lia.
Qed.

Lemma for_loop_Ok_inv lo hi s s' :
  P s -> for_loop lo hi body s = Ok s' ->
  P s' /\ forall k, lo <= k < hi -> exists s1 s2, P s1 /\ body k s1 = Ok s2.
Proof.
  intros Hs E. destruct (iterate_Ok_inv _ _ _ _ Hs E) as [Hs' Hk].
  split; [exact Hs' |]. intros k Hr. apply Hk. lia.
Qed.
End LoopInversion.

Section LengthKept.
Context {num : Type} `{Numeric num}.
Variable N : Z.
Variables coeffs vars : list num.

Lemma cost_add_length fg e fg' :
  cost_add fg e = Ok fg' -> length fg' = length fg.
Proof.
  unfold cost_add. intros E. bind_inv E. apply vset_Ok_inv in E. apply E.
Qed.

Lemma reference_cost_length t fg fg' :
  reference_cost N vars t fg = Ok fg' -> length fg' = length fg.
Proof.
  unfold reference_cost. intros E. bind_inv E.
  repeat match goal with
    | Hc : cost_add _ _ = Ok _ |- _ => apply cost_add_length in Hc
    end.
  congruence.
Qed.

Lemma actuator_cost_length t fg fg' :
  actuator_cost N vars t fg = Ok fg' -> length fg' = length fg.
Proof.
  unfold actuator_cost. intros E. bind_inv E.
  repeat match goal with
    | Hc : cost_add _ _ = Ok _ |- _ => apply cost_add_length in Hc
    end.
  congruence.
Qed.

Lemma change_cost_length t fg fg' :
  change_cost N vars t fg = Ok fg' -> length fg' = length fg.
Proof.
  unfold change_cost. intros E. bind_inv E.
  repeat match goal with
    | Hc : cost_add _ _ = Ok _ |- _ => apply cost_add_length in Hc
    end.
  congruence.
Qed.

Lemma initial_constraint_length start fg fg' :
  initial_constraint vars start fg = Ok fg' -> length fg' = length fg.
Proof.
  unfold initial_constraint. intros E. bind_inv E.
  apply vset_Ok_inv in E. apply E.
Qed.

(** A pass of the last loop that ends well has read [vars] at the subscript
    of [a[t - 1]] and [coeffs[3]], and has written [fg] at the subscript of
    the constraint of [epsi[t]]. *)
Lemma model_constraints_Ok_inv t fg fg' :
  model_constraints N coeffs vars t fg = Ok fg' ->
  length fg' = length fg
  /\ a_start N +' t -' 1 < Z.of_nat (length vars)
  /\ 3 < Z.of_nat (length coeffs)
  /\ 1 +' epsi_start N +' t < Z.of_nat (length fg).
Proof.
  unfold model_constraints. intros E. bind_inv E.
  repeat match goal with
    | Hs : vset _ _ _ _ = Ok _ |- _ => apply vset_Ok_inv in Hs
    end.
  repeat match goal with
    | Hg : vget v_vars _ (a_start N +' t -' 1) = Ok _ |- _ =>
        apply vget_Ok_range in Hg
    | Hg : vget v_coeffs _ 3 = Ok _ |- _ => apply vget_Ok_range in Hg
    end.
  repeat match goal with Hc : _ /\ _ |- _ => destruct Hc end.
  repeat split; try lia; congruence.
Qed.
End LengthKept.

(** For a horizon of at least 2: if an evaluation runs to its end
    without a subscript outside a vector, then [vars] has at least [n_vars]
    entries, [fg] has at least [1 + n_constraints] entries, there are at
    least four coefficients, and [fg] has kept its length. *)
Lemma completed_evaluation_sizes {num : Type} `{Numeric num}
    (N : Z) (coeffs fg vars fg' : list num) :
  2 <= N -> 8 * N < size_max ->
  FG_eval N coeffs fg vars = Ok fg' ->
  n_vars N <= Z.of_nat (length vars)
  /\ 1 + n_constraints N <= Z.of_nat (length fg)
  /\ (4 <= length coeffs)%nat
  /\ length fg' = length fg.
Proof.
  intros HN Hsmall E. layout N.
  unfold FG_eval in E. bind_inv E.
  apply vset_Ok_inv in E0. destruct E0 as [_ L0].
  apply (for_loop_Ok_inv (fun s => length s = length r)) in E1;
    [| intros k s s' Hs Hb; apply reference_cost_length in Hb; congruence
     | reflexivity].
  destruct E1 as [L1 _].
  apply (for_loop_Ok_inv (fun s => length s = length r0)) in E2;
    [| intros k s s' Hs Hb; apply actuator_cost_length in Hb; congruence
     | reflexivity].
  destruct E2 as [L2 _].
  apply (for_loop_Ok_inv (fun s => length s = length r1)) in E3;
    [| intros k s s' Hs Hb; apply change_cost_length in Hb; congruence
     | reflexivity].
  destruct E3 as [L3 _].
  apply initial_constraint_length in E4, E5, E6, E7, E8, E9.
  apply (for_loop_Ok_inv (fun s => length s = length r8)) in E;
    [| intros k s s' Hs Hb; apply model_constraints_Ok_inv in Hb;
       destruct Hb as [Hb _]; congruence
     | reflexivity].
  destruct E as [L10 Hlast].
  destruct (Hlast (N - 1) ltac:(lia)) as (s1 & s2 & Ls1 & Hb).
  apply model_constraints_Ok_inv in Hb.
  destruct Hb as (_ & Hv & Hc & Hf).
  replace (a_start N +' (N - 1) -' 1) with (n_vars N - 1) in Hv
    by (sz_norm; lia).
  replace (1 +' epsi_start N +' (N - 1)) with (n_constraints N) in Hf
    by (sz_norm; lia).
  assert (Lfg : length s1 = length fg) by congruence.
  assert (Lfg' : length fg' = length fg) by congruence.
  repeat split; try lia; exact Lfg'.
Qed.

(** ** X8: when an evaluation completes *)

(** X8.  For a horizon of at least 2 an evaluation runs to its end, with
    no subscript outside a vector, exactly when [vars] has at least [n_vars]
    entries, [fg] at least [1 + n_constraints] and the polynomial at least
    four coefficients; and then [fg] keeps its length. *)
Theorem evaluation_completes_iff {num : Type} `{Numeric num}
    (N : Z) (coeffs fg vars : list num) :
  2 <= N -> 8 * N < size_max ->
  ((exists fg', FG_eval N coeffs fg vars = Ok fg')
   <-> n_vars N <= Z.of_nat (length vars)
       /\ 1 + n_constraints N <= Z.of_nat (length fg)
       /\ (4 <= length coeffs)%nat)
  /\ forall fg', FG_eval N coeffs fg vars = Ok fg' -> length fg' = length fg.
Proof.
  intros HN Hsmall. split; [split |].
  - intros (fg' & E).
    destruct (completed_evaluation_sizes N coeffs fg vars fg' HN Hsmall E)
      as (Hv & Hf & Hc & _).
    auto.
  - intros (Hv & Hf & Hc). layout N.
    destruct (FG_eval_spec N coeffs vars HN Hsmall ltac:(lia) fg Hc
                ltac:(lia)) as (fg' & E & _).
    exists fg'. exact E.
  - intros fg' E.
    apply (completed_evaluation_sizes N coeffs fg vars fg' HN Hsmall E).
Qed.

Lemma evaluation_completes_iff_witness :
  ((exists fg',
      FG_eval 10 [1; 2; 3; 4]%R (repeat 0%R 61) (repeat 0%R 77) = Ok fg')
   <-> n_vars 10 <= Z.of_nat (length (repeat 0%R 77))
       /\ 1 + n_constraints 10 <= Z.of_nat (length (repeat 0%R 61))
       /\ (4 <= length [1; 2; 3; 4]%R)%nat)
  /\ forall fg',
      FG_eval 10 [1; 2; 3; 4]%R (repeat 0%R 61) (repeat 0%R 77) = Ok fg' ->
      length fg' = length (repeat 0%R 61).
Proof.
  apply (evaluation_completes_iff 10); [lia | reflexivity].
Defined.

(** ** X9, X10: how Solve reads the state *)

(** X9.  [Solve] reads [state[0]] to [state[5]] and nothing behind them: two
    state vectors of at least six entries that agree on the first six give
    the same assembled problem and the same outcome of [Solve]. *)
Theorem only_six_state_entries {num : Type} `{Numeric num}
    (N : Z) (ipopt_solve : nlp num -> solve_result num) (junk : num)
    (state1 state2 coeffs : list num) :
  (6 <= length state1)%nat -> (6 <= length state2)%nat ->
  firstn 6 state1 = firstn 6 state2 ->
  Solve_setup N junk state1 coeffs = Solve_setup N junk state2 coeffs
  /\ Solve N ipopt_solve junk state1 coeffs
     = Solve N ipopt_solve junk state2 coeffs.
Proof.
  intros H1 H2 Heq.
  assert (E : Solve_setup N junk state1 coeffs
              = Solve_setup N junk state2 coeffs).
  { destruct state1 as [| a0 [| a1 [| a2 [| a3 [| a4 [| a5 r1]]]]]];
      simpl in H1; try lia.
    destruct state2 as [| b0 [| b1 [| b2 [| b3 [| b4 [| b5 r2]]]]]];
      simpl in H2; try lia.
    simpl in Heq. injection Heq as -> -> -> -> -> ->.
    reflexivity. }
  split; [exact E |].
  unfold Solve, Solve_frame. rewrite E. reflexivity.
Qed.

Lemma only_six_state_entries_witness :
  Solve_setup 10 0%R [1; 2; 3; 4; 5; 6; 7; 8]%R [0; 0; 0; 0]%R
  = Solve_setup 10 0%R [1; 2; 3; 4; 5; 6]%R [0; 0; 0; 0]%R
  /\ Solve 10
       (fun _ => {| status := success; x := repeat 0%R 78; obj_value := 0%R |})
       0%R [1; 2; 3; 4; 5; 6; 7; 8]%R [0; 0; 0; 0]%R
     = Solve 10
         (fun _ => {| status := success; x := repeat 0%R 78;
                      obj_value := 0%R |})
         0%R [1; 2; 3; 4; 5; 6]%R [0; 0; 0; 0]%R.
Proof.
  apply (only_six_state_entries 10);
    [simpl; lia | simpl; lia | reflexivity].
Defined.

(** X10.  Nothing checks the size of [state]: with fewer than six entries
    [Solve] reads the state vector at the first subscript behind its end,
    before any vector is sized and before the solver is called. *)
Theorem short_state_read_outside {num : Type} `{Numeric num}
    (N : Z) (ipopt_solve : nlp num -> solve_result num) (junk : num)
    (state coeffs : list num) :
  (length state < 6)%nat ->
  Solve_setup N junk state coeffs = Fault v_state (Z.of_nat (length state))
  /\ Solve N ipopt_solve junk state coeffs
     = Fault v_state (Z.of_nat (length state)).
Proof.
  intros Hst.
  assert (E : Solve_setup N junk state coeffs
              = Fault v_state (Z.of_nat (length state))).
  { destruct state as [| a0 [| a1 [| a2 [| a3 [| a4 [| a5 r]]]]]];
      simpl in Hst; try lia; reflexivity. }
  split; [exact E |].
  unfold Solve, Solve_frame. rewrite E. reflexivity.
Qed.

Lemma short_state_read_outside_witness :
  Solve_setup 10 0%R [1; 2; 3]%R [0; 0; 0; 0]%R
  = Fault v_state (Z.of_nat (length [1; 2; 3]%R))
  /\ Solve 10
       (fun _ => {| status := success; x := repeat 0%R 78; obj_value := 0%R |})
       0%R [1; 2; 3]%R [0; 0; 0; 0]%R
     = Fault v_state (Z.of_nat (length [1; 2; 3]%R)).
Proof.
  apply (short_state_read_outside 10). simpl. lia.
Defined.

(** ** X11: how Solve reads the solution *)

Section SolutionFacts.
Context {num : Type} `{Numeric num}.
Variable N : Z.
Hypothesis N_ge : 2 <= N.
Hypothesis N_small : 8 * N < size_max.

Lemma length_flatten (l : list (num * num)) :
  length (flatten l) = (2 * length l)%nat.
Proof.
  unfold flatten. induction l as [| p l IH]; simpl; [reflexivity | lia].
Qed.

(** The largest subscript [extract] reads is [a_start]. *)
Lemma extract_reads (sx : list num) :
  a_start N < Z.of_nat (length sx) ->
  extract N sx
  = Ok (elt sx (delta_start N) :: elt sx (a_start N)
          :: flatten (predicted_trajectory N sx)).
Proof.
  intros Hlen. layout N. unfold extract. sz_norm.
  rewrite !(vget_ok v_solution_x sx _ (lit 0)) by lia. cbn [bind].
  fold (elt sx (delta_start N)). fold (elt sx (a_start N)).
  set (head := [elt sx (delta_start N); elt sx (a_start N)]).
  destruct (for_loop_inv
              (fun k (r : list num) =>
                 r = head ++ flatten (map (predicted_point N sx)
                                        (interval 1 (k + 1))))
              0 (N - 1)
              (fun i result =>
                 xi <- vget v_solution_x sx (x_start +' i +' 1) ;;
                 yi <- vget v_solution_x sx (y_start N +' i +' 1) ;;
                 Ok (result ++ [xi] ++ [yi]))
              head ltac:(lia)) as (r & E & Hr).
  - rewrite interval_empty by lia. reflexivity.
  - intros k r Hk ->. sz_norm.
    rewrite !(vget_ok v_solution_x sx _ (lit 0)) by lia. cbn [bind].
    eexists. split; [reflexivity |].
    rewrite (interval_snoc 1 (k + 1)) by lia.
    rewrite map_app. cbn [map].
    change (predicted_point N sx (k + 1))
      with (elt sx (x_start + (k + 1)), elt sx (y_start N + (k + 1))).
    rewrite flatten_snoc, <- !app_assoc. unfold elt.
    rewrite !Z.add_assoc. reflexivity.
  - rewrite E. f_equal. rewrite Hr.
    replace (N - 1 + 1) with N by lia. reflexivity.
Qed.

Lemma extract_short (sx : list num) :
  Z.of_nat (length sx) <= a_start N ->
  exists i, extract N sx = Fault v_solution_x i /\ Z.of_nat (length sx) <= i.
Proof.
  intros Hlen. layout N. unfold extract.
  destruct (Z_lt_dec (delta_start N) (Z.of_nat (length sx))) as [Hd | Hd].
  - exists (a_start N).
    rewrite (vget_ok v_solution_x sx _ (lit 0)) by lia. cbn [bind].
    rewrite vget_fault by lia. split; [reflexivity | lia].
  - exists (delta_start N).
    rewrite vget_fault by lia. split; [reflexivity | lia].
Qed.
End SolutionFacts.

(** X11.  [Solve] reads the solution at subscripts up to [a_start] and does
    not check its size.  When the solver's vector has more than [a_start]
    entries [Solve] returns exactly [2 * N] numbers; when it has fewer,
    [Solve] reads it outside its range. *)
Theorem solution_read_unchecked {num : Type} `{Numeric num}
    (N : Z) (ipopt_solve : nlp num -> solve_result num) (junk : num)
    (state coeffs : list num) :
  2 <= N -> 8 * N < size_max ->
  (6 <= length state)%nat ->
  exists p,
    Solve_setup N junk state coeffs = Ok p
    /\ (a_start N < Z.of_nat (length (x (ipopt_solve p))) ->
        exists r, Solve N ipopt_solve junk state coeffs = Ok r
                  /\ Z.of_nat (length r) = 2 * N)
    /\ (Z.of_nat (length (x (ipopt_solve p))) <= a_start N ->
        exists i, Solve N ipopt_solve junk state coeffs
                  = Fault v_solution_x i
                  /\ Z.of_nat (length (x (ipopt_solve p))) <= i).
Proof.
  intros HN Hsmall Hst.
  destruct (Solve_setup_spec N ltac:(lia) Hsmall junk state coeffs Hst)
    as (p & E & _).
  exists p. split; [exact E |].
  unfold Solve, Solve_frame. rewrite E. cbn [bind]. split.
  - intros Hlen. rewrite (extract_reads N HN Hsmall _ Hlen).
    cbn [bind returned]. eexists. split; [reflexivity |].
    cbn [length]. rewrite length_flatten.
    unfold predicted_trajectory. rewrite length_map.
    pose proof (length_interval 1 N ltac:(lia)). lia.
  - intros Hlen.
    destruct (extract_short N HN Hsmall _ Hlen) as (i & Ei & Hi).
    exists i. rewrite Ei. split; [reflexivity | exact Hi].
Qed.

Lemma solution_read_unchecked_witness :
  exists p,
    Solve_setup 10 0%R [1; 2; 3; 4; 5; 6]%R [0; 0; 0; 0]%R = Ok p
    /\ (a_start 10 < Z.of_nat (length (repeat 0%R 70)) ->
        exists r,
          Solve 10
            (fun _ => {| status := success; x := repeat 0%R 70;
                         obj_value := 0%R |})
            0%R [1; 2; 3; 4; 5; 6]%R [0; 0; 0; 0]%R = Ok r
          /\ Z.of_nat (length r) = 2 * 10)
    /\ (Z.of_nat (length (repeat 0%R 70)) <= a_start 10 ->
        exists i,
          Solve 10
            (fun _ => {| status := success; x := repeat 0%R 70;
                         obj_value := 0%R |})
            0%R [1; 2; 3; 4; 5; 6]%R [0; 0; 0; 0]%R
          = Fault v_solution_x i
          /\ Z.of_nat (length (repeat 0%R 70)) <= i).
Proof.
  apply (solution_read_unchecked 10
           (fun _ => {| status := success; x := repeat 0%R 70;
                        obj_value := 0%R |}));
    [lia | reflexivity | simpl; lia].
Defined.
